(** * web.dev service worker (src/lib/sw.js): a shallow embedding

    The worker is modelled as a state-and-exception monad over a [World]
    that holds the core cache, the network, the partial strategy, the
    idb-keyval store, the window clients and a trace of the effects
    performed so far.  Every [async] function of the source is one monadic
    definition below, in source order of its statements. *)

From Stdlib Require Import ZArith Ascii String DecimalString.
From stdpp Require Import gmap strings list.

Local Open Scope Z_scope.

(** ** JavaScript strings *)

Module JsString.

Definition dq : string := String (ascii_of_nat 34) EmptyString.
Definition nl : string := String (ascii_of_nat 10) EmptyString.

(** [s.endsWith(suffix)] *)
Fixpoint endsWith (s suffix : string) : bool :=
  String.eqb s suffix ||
  match s with
  | EmptyString => false
  | String _ s' => endsWith s' suffix
  end.

(** [pathname.replace(/\.html$/, '.json')]: the pattern matches only where
    the rest of the input is exactly [.html]. *)
Fixpoint replace_html_suffix (s : string) : string :=
  if String.eqb s ".html" then ".json"
  else match s with
       | EmptyString => EmptyString
       | String c s' => String c (replace_html_suffix s')
       end.

(** [strip_prefix pat s = Some rest] when [s = pat ++ rest]. *)
Fixpoint strip_prefix (pat s : string) : option string :=
  match pat, s with
  | EmptyString, _ => Some s
  | String a pat', String b s' =>
      if Ascii.eqb a b then strip_prefix pat' s' else None
  | String _ _, EmptyString => None
  end.

(** Leftmost occurrence of [pat] in [s]: the text before and after it. *)
Fixpoint find_first (pat s : string) : option (string * string) :=
  match strip_prefix pat s with
  | Some rest => Some (EmptyString, rest)
  | None =>
      match s with
      | EmptyString => None
      | String c s' =>
          match find_first pat s' with
          | Some (before, after) => Some (String c before, after)
          | None => None
          end
      end
  end.

Definition includes (s pat : string) : bool :=
  match find_first pat s with Some _ => true | None => false end.

(** GetSubstitution of ECMA-262 for a string pattern: there are no
    captures, so only [$$], [$&], [$`] and [$'] are special; [$1] and the
    like stay as they are. *)
Fixpoint GetSubstitution (matched before after repl : string) : string :=
  match repl with
  | EmptyString => EmptyString
  | String c r =>
      if Ascii.eqb c "$" then
        match r with
        | EmptyString => String c EmptyString
        | String d r' =>
            if Ascii.eqb d "$" then String "$" (GetSubstitution matched before after r')
            else if Ascii.eqb d "&" then matched +:+ GetSubstitution matched before after r'
            else if Ascii.eqb d "`" then before +:+ GetSubstitution matched before after r'
            else if Ascii.eqb d "'" then after +:+ GetSubstitution matched before after r'
            else String c (GetSubstitution matched before after r)
        end
      else String c (GetSubstitution matched before after r)
  end.

(** [s.replace(pat, repl)] with a string pattern: the first occurrence
    only. *)
Definition replace (s pat repl : string) : string :=
  match find_first pat s with
  | Some (before, after) =>
      before +:+ GetSubstitution pat before after repl +:+ after
  | None => s
  end.


Fixpoint has_char (c : ascii) (s : string) : bool :=
  match s with
  | EmptyString => false
  | String d s' => Ascii.eqb c d || has_char c s'
  end.

(** Template-literal conversion of a status code. *)
Definition of_Z (n : Z) : string := NilEmpty.string_of_int (Z.to_int n).




(** ASCII lower case, as the host parser applies it. *)
Definition to_lower (c : ascii) : ascii :=
  let n := nat_of_ascii c in
  if ((65 <=? n) && (n <=? 90))%nat then ascii_of_nat (n + 32) else c.

Fixpoint lower (s : string) : string :=
  match s with
  | EmptyString => EmptyString
  | String c r => String (to_lower c) (lower r)
  end.

End JsString.

(** ** JavaScript values read from JSON documents *)

Module Js.

(** [a === b] on a property that is a string or absent ([None] is
    [undefined]). *)
Definition strict_eq (a b : option string) : bool := bool_decide (a = b).

(** [a > b] on a property that is a number or absent: [undefined] converts
    to NaN, and every comparison with NaN is false.  Numbers are the
    integer millisecond timestamps that [builtAt] holds. *)
Definition gt (a b : option Z) : bool :=
  match a, b with
  | Some x, Some y => x >? y
  | _, _ => false
  end.

(** ToBoolean of a string-or-absent property. *)
Definition truthy (a : option string) : bool :=
  match a with
  | Some s => negb (String.eqb s EmptyString)
  | None => false
  end.

(** ToBoolean of a boolean-or-absent property. *)
Definition truthy_bool (a : option bool) : bool :=
  match a with Some b => b | None => false end.

(** [a || d] where [d] is a string. *)
Definition or_default (a : option string) (d : string) : string :=
  match a with
  | Some s => if String.eqb s EmptyString then d else s
  | None => d
  end.

(** ToString, as a template literal or [replace] applies it. *)
Definition to_string (a : option string) : string :=
  match a with Some s => s | None => "undefined" end.

End Js.

(** An entry of the precache manifest, [{url}]. *)
Record ManifestEntry := { url : string }.

(** A parsed JSON object, by the properties the worker reads.  A partial and
    a template bundle are both such objects; a property that is absent reads
    as [undefined], here [None].  The properties have the types that the
    JSDoc of [templateForPartial] and the two endpoints give them; a body
    that parses to something else than an object is not modelled. *)
Record JsonDoc := {
  raw : option string;
  title : option string;
  rss : option string;
  offline : option bool;
  resourcesVersion : option string;
  builtAt : option Z;
  template : option string;
  manifest : option (list ManifestEntry);
}.

(** [delete raw.manifest] *)
Definition delete_manifest (d : JsonDoc) : JsonDoc :=
  {| raw := raw d; title := title d; rss := rss d; offline := offline d;
     resourcesVersion := resourcesVersion d; builtAt := builtAt d;
     template := template d; manifest := None |}.

Inductive Body :=
| BodyEmpty
| BodyText (text : string)        (* a body that is not JSON, such as HTML *)
| BodyJson (doc : JsonDoc).       (* JSON.stringify(doc) *)

Record Response := {
  status : Z;
  headers : list (string * string);
  body : Body;
}.

(** [response.ok] *)
Definition ok (r : Response) : bool := (200 <=? status r) && (status r <=? 299).

(** [new Response(body)]: the default status is 200. *)
Definition new_Response (b : Body) : Response :=
  {| status := 200; headers := []; body := b |}.

(** The worker's own location: the site is served from https://web.dev. *)
Definition self_location_scheme : string := "https:".
Definition self_location_origin : string := "https://web.dev".

Module UrlParser.

Definition is_slash (c : ascii) : bool := Ascii.eqb c "/" || Ascii.eqb c "\".

(** The special-authority-ignore-slashes state of the URL parser. *)
Fixpoint skip_slashes (s : string) : string :=
  match s with
  | EmptyString => EmptyString
  | String c r => if is_slash c then skip_slashes r else s
  end.

(** The authority runs up to the first slash, question mark or number
    sign. *)
Fixpoint split_authority (s : string) : string * string :=
  match s with
  | EmptyString => (EmptyString, EmptyString)
  | String c r =>
      if is_slash c || Ascii.eqb c "?" || Ascii.eqb c "#" then (EmptyString, s)
      else let (host, rest) := split_authority r in (String c host, rest)
  end.

(** The URL that a reference made of a path and a query resolves to against
    the worker's location, serialised.  A reference that begins with two
    slashes is scheme-relative: it names its own host, and only the scheme is
    the worker's.  Every other reference the handler passes begins with one
    slash and keeps the worker's origin; the path and the query come from a
    parsed URL, so that parsing them again changes nothing.  Hosts are taken
    as written, in lower case: numeric hosts and punycode are not
    modelled. *)
Definition resolve (reference : string) : string :=
  match reference with
  | String a (String b rest) =>
      if is_slash a && is_slash b then
        let (host, tail) := split_authority (skip_slashes rest) in
        self_location_scheme +:+ "//" +:+ JsString.lower host +:+
        match tail with
        | String c _ => if is_slash c then tail else "/" +:+ tail
        | EmptyString => "/"
        end
      else self_location_origin +:+ reference
  | _ => self_location_origin +:+ reference
  end.

End UrlParser.

(** [Response.redirect(url, status)]: the Location is the url parsed against
    the worker's location and serialised. *)
Definition Response_redirect (location : string) (st : Z) : Response :=
  {| status := st; headers := [("Location", UrlParser.resolve location)];
     body := BodyEmpty |}.

Inductive JsError :=
| TypeError (msg : string)
| SyntaxError
| NetworkError
| InvalidStateError
| Error (msg : string).

Inductive ClientType := window | worker | sharedworker.

Record Client := {
  client_id : nat;
  client_url : string;
  client_type : ClientType;
  controlled : bool;
}.

Inductive Event :=
| EvFetch (u : string)
| EvStrategy (path : string)
| EvCacheMatch (u : string)
| EvCachePut (u : string) (r : Response)
| EvCacheAddAll (urls : list string)
| EvCacheDelete (name : string)
| EvIdbGet (key : string)
| EvIdbSet (key value : string)
| EvClaim
| EvMatchAll
| EvNavigate (id : nat) (u : string)
| EvSkipWaiting.

(** ** The world the worker runs in *)

Record World := {
  coreCache : gmap string Response;            (* the cache named webdev-core *)
  network : string -> option Response;         (* fetch(url); None: it rejects *)
  partialStrategy : string -> option Response; (* NetworkFirst.handle; None: it rejects *)
  idb : gmap string string;                    (* idb-keyval *)
  replacingPreviousServiceWorker : bool;
  registration_active : bool;                  (* self.registration.active is non-null *)
  clients : list Client;
  trace : list Event;
}.

Definition log (e : Event) (w : World) : World :=
  {| coreCache := coreCache w; network := network w;
     partialStrategy := partialStrategy w; idb := idb w;
     replacingPreviousServiceWorker := replacingPreviousServiceWorker w;
     registration_active := registration_active w; clients := clients w;
     trace := trace w ++ [e] |}.

Definition set_coreCache (c : gmap string Response) (w : World) : World :=
  {| coreCache := c; network := network w;
     partialStrategy := partialStrategy w; idb := idb w;
     replacingPreviousServiceWorker := replacingPreviousServiceWorker w;
     registration_active := registration_active w; clients := clients w;
     trace := trace w |}.

Definition set_idb (s : gmap string string) (w : World) : World :=
  {| coreCache := coreCache w; network := network w;
     partialStrategy := partialStrategy w; idb := s;
     replacingPreviousServiceWorker := replacingPreviousServiceWorker w;
     registration_active := registration_active w; clients := clients w;
     trace := trace w |}.

Definition set_replacing (b : bool) (w : World) : World :=
  {| coreCache := coreCache w; network := network w;
     partialStrategy := partialStrategy w; idb := idb w;
     replacingPreviousServiceWorker := b;
     registration_active := registration_active w; clients := clients w;
     trace := trace w |}.

Definition set_clients (cs : list Client) (w : World) : World :=
  {| coreCache := coreCache w; network := network w;
     partialStrategy := partialStrategy w; idb := idb w;
     replacingPreviousServiceWorker := replacingPreviousServiceWorker w;
     registration_active := registration_active w; clients := cs;
     trace := trace w |}.

(** ** Promises: state and exceptions *)

Inductive Result (A : Type) :=
| Ok (a : A)
| Throw (e : JsError).
Arguments Ok {A} a.
Arguments Throw {A} e.

Definition M (A : Type) : Type := World -> Result A * World.

Definition ret {A} (a : A) : M A := fun w => (Ok a, w).

Definition throw {A} (e : JsError) : M A := fun w => (Throw e, w).

Definition bind {A B} (c : M A) (k : A -> M B) : M B :=
  fun w =>
    match c w with
    | (Ok a, w') => k a w'
    | (Throw e, w') => (Throw e, w')
    end.

(** [try { c } catch (e) { h e }] *)
Definition try_catch {A} (c : M A) (h : JsError -> M A) : M A :=
  fun w =>
    match c w with
    | (Ok a, w') => (Ok a, w')
    | (Throw e, w') => h e w'
    end.

Declare Scope js_scope.
Delimit Scope js_scope with js.
Notation "x <- c ;; k" := (bind c (fun x => k))
  (at level 100, c at next level, right associativity) : js_scope.
Notation "c ;; k" := (bind c (fun _ => k))
  (at level 100, right associativity) : js_scope.
Local Open Scope js_scope.

Definition emit (e : Event) : M unit := fun w => (Ok tt, log e w).

(** [fetch(url)] *)
Definition fetch (u : string) : M Response :=
  emit (EvFetch u) ;;
  fun w => match network w u with
           | Some r => (Ok r, w)
           | None => (Throw NetworkError, w)
           end.

(** [response.json()] *)
Definition json (r : Response) : M JsonDoc :=
  match body r with
  | BodyJson d => ret d
  | _ => throw SyntaxError
  end.

(** [caches.match(url, {cacheName: cacheNames.webdevCore})] *)
Definition caches_match (u : string) : M (option Response) :=
  emit (EvCacheMatch u) ;;
  fun w => (Ok (coreCache w !! u), w).

(** [cache.put(new Request(url), response)] on the core cache.  The source
    does not await it; the write is taken to land at once. *)
Definition cache_put (u : string) (r : Response) : M unit :=
  emit (EvCachePut u r) ;;
  fun w => (Ok tt, set_coreCache (<[u := r]> (coreCache w)) w).

(** ASCII case-insensitive comparison of header names. *)
Definition same_header_name (a b : string) : bool :=
  String.eqb (JsString.lower a) (JsString.lower b).

Definition is_blank (c : ascii) : bool := Ascii.eqb c " " || Ascii.eqb c "009".

(** One of the comma-separated values of a header is an asterisk. *)
Fixpoint has_star_value (seen_other seen_star : bool) (s : string) : bool :=
  match s with
  | EmptyString => seen_star && negb seen_other
  | String c r =>
      if Ascii.eqb c "," then seen_star && negb seen_other || has_star_value false false r
      else if is_blank c then has_star_value seen_other seen_star r
      else if Ascii.eqb c "*" then
        has_star_value (seen_other || seen_star) true r
      else has_star_value true seen_star r
  end.

(** The response has a Vary header with the value [*]. *)
Definition varies_on_everything (r : Response) : bool :=
  existsb (fun h => same_header_name h.1 "Vary" && has_star_value false false h.2)
          (headers r).

(** What [cache.addAll] takes from the network: an ok status other than 206
    and no [Vary: *]. *)
Definition cacheable (r : Response) : bool :=
  ok r && negb (status r =? 206) && negb (varies_on_everything r).

(** The responses [cache.addAll] fetches: every url must fetch, with a
    response that is cacheable. *)
Fixpoint fetch_each (net : string -> option Response) (urls : list string)
  : option (list (string * Response)) :=
  match urls with
  | [] => Some []
  | u :: rest =>
      match net u with
      | Some r =>
          if cacheable r then
            match fetch_each net rest with
            | Some l => Some ((u, r) :: l)
            | None => None
            end
          else None
      | None => None
      end
  end.

(** The entries [cache.addAll] would store: the fetched responses, when the
    batch holds no request twice.  Urls are compared as the manifest writes
    them. *)
Definition fetch_all (net : string -> option Response) (urls : list string)
  : option (list (string * Response)) :=
  match fetch_each net urls with
  | Some entries => if bool_decide (NoDup urls) then Some entries else None
  | None => None
  end.

(** What [cache.addAll] rejects with: a TypeError when a fetch fails or its
    response is not cacheable, an InvalidStateError when the fetches went
    well and a request is in the batch twice. *)
Definition addAll_error (net : string -> option Response) (urls : list string)
  : JsError :=
  match fetch_each net urls with
  | Some _ => InvalidStateError
  | None => TypeError "Request failed"
  end.

Definition put_all (entries : list (string * Response)) (c : gmap string Response)
  : gmap string Response :=
  foldl (fun acc e => <[e.1 := e.2]> acc) c entries.

(** [cache.addAll(urls)] on the core cache: all or nothing. *)
Definition cache_addAll (urls : list string) : M unit :=
  emit (EvCacheAddAll urls) ;;
  fun w => match fetch_all (network w) urls with
           | Some entries => (Ok tt, set_coreCache (put_all entries (coreCache w)) w)
           | None => (Throw (addAll_error (network w) urls), w)
           end.

Definition templateUrl : string := "/template-json".
Definition serviceWorkerArchitecture : string := "v3".
Definition idbKeys_architecture : string := "arch".

(** ** updateTemplate (sw.js 295-312) *)
Definition updateTemplate : M (option string) :=
  networkResponse <- fetch templateUrl ;;
  raw <- json networkResponse ;;
  let manifest := manifest raw in
  let template := template raw in
  let raw := delete_manifest raw in
  cache_put templateUrl (new_Response (BodyJson raw)) ;;
  match manifest with
  | None => throw (TypeError "manifest is undefined")
  | Some manifest =>
      cache_addAll (map url manifest) ;;
      ret template
  end.

(** [const {template} = v] where [v] is what [updateTemplate] returned: the
    template string, or [undefined].  Destructuring [undefined] throws; a
    string has no property named template. *)
Definition destructure_template (v : option string) : M (option string) :=
  match v with
  | None => throw (TypeError "Cannot destructure property template")
  | Some _ => ret None
  end.

(** sw.js 275-289: the refresh, and what its catch block makes of a
    failure. *)
Definition refresh_or_fallback (fallbackTemplate : option string) : M (option string) :=
  try_catch
    (returned <- updateTemplate ;;
     template <- destructure_template returned ;;
     ret template)
    (fun e =>
       if Js.truthy fallbackTemplate then ret fallbackTemplate
       else throw e).

(** ** templateForPartial (sw.js 248-290)

    [inl t] stands for the early [return template]; [inr f] carries
    [fallbackTemplate] on to the refresh. *)
Definition templateForPartial (partial : JsonDoc) : M (option string) :=
  cachedResponse <- caches_match templateUrl ;;
  decided <- match cachedResponse with
             | Some cachedResponse =>
                 cached <- json cachedResponse ;;
                 let fallbackTemplate := template cached in
                 if negb (Js.truthy (resourcesVersion cached)) then
                   ret (inr fallbackTemplate)
                 else if Js.strict_eq (resourcesVersion cached) (resourcesVersion partial)
                         || Js.gt (builtAt cached) (builtAt partial) then
                   ret (inl (template cached))
                 else ret (inr fallbackTemplate)
             | None => ret (inr None)
             end ;;
  match decided with
  | inl template => ret template
  | inr fallbackTemplate => refresh_or_fallback fallbackTemplate
  end.

(** ** offlinePartialResponse (sw.js 317-328) *)
Definition dev_offline_partial : JsonDoc :=
  {| raw := Some "<h1>Dev offline</h1>"; title := Some EmptyString; rss := None;
     offline := Some true; resourcesVersion := None; builtAt := None;
     template := None; manifest := None |}.

Definition offlinePartialResponse : M Response :=
  cachedResponse <- caches_match "/offline/index.json" ;;
  match cachedResponse with
  | None => ret (new_Response (BodyJson dev_offline_partial))
  | Some cachedResponse => ret cachedResponse
  end.

(** ** Route matchers *)

Record Url := {
  sameOrigin : bool;     (* url.host === self.location.host *)
  pathname : string;
  search : string;       (* the query string, with its leading ? when non-empty *)
  hash : string;         (* the fragment, with its leading # when non-empty *)
}.

Module Route.

(** [\w] *)
Definition is_word (c : ascii) : bool :=
  let n := nat_of_ascii c in
  ((48 <=? n) && (n <=? 57) || (65 <=? n) && (n <=? 90) ||
   (97 <=? n) && (n <=? 122) || (n =? 95))%nat.

(** [[\w-/]] *)
Definition is_page_char (c : ascii) : bool :=
  is_word c || Ascii.eqb c "-" || Ascii.eqb c "/".

(** [[\w-/]*(?:|\.html)$] *)
Fixpoint page_tail (s : string) : bool :=
  match s with
  | EmptyString => true
  | String c s' => is_page_char c && page_tail s' || String.eqb s ".html"
  end.

(** [^/[\w-/]*(?:|\.html)$] *)
Definition normalPathRe (s : string) : bool :=
  match s with
  | String c rest => Ascii.eqb c "/" && page_tail rest
  | EmptyString => false
  end.

(** [([\w-]+/)*\w+\.json$]: [seg] tells that the segment being read is not
    empty, [wordy] that it has no hyphen so far. *)
Fixpoint partial_tail (seg wordy : bool) (s : string) : bool :=
  seg && wordy && String.eqb s ".json" ||
  match s with
  | EmptyString => false
  | String c s' =>
      if Ascii.eqb c "/" then seg && partial_tail false true s'
      else if is_word c then partial_tail true wordy s'
      else if Ascii.eqb c "-" then partial_tail true false s'
      else false
  end.

(** [^/([\w-]+/)*\w+\.json$] *)
Definition partialPathRe (s : string) : bool :=
  match s with
  | String c rest => Ascii.eqb c "/" && partial_tail false true rest
  | EmptyString => false
  end.

(** Modelled from the spec: [matchSameOriginRegExp] of ./utils/sw-match.js,
    which is not among the sources.  A route matcher is a predicate over a
    same-origin URL: it tests the pattern on the path of a URL of the
    worker's own origin and refuses every other URL. *)
Definition matchSameOriginRegExp (re : string -> bool) (u : Url) : bool :=
  sameOrigin u && re (pathname u).

Definition partialMatch : Url -> bool := matchSameOriginRegExp partialPathRe.
Definition normalMatch : Url -> bool := matchSameOriginRegExp normalPathRe.

(** The href of a url of the worker's own origin. *)
Definition href (u : Url) : string :=
  self_location_origin +:+ pathname u +:+ search u +:+ hash u.

(** Modelled from the spec: the route of sw.js 137-143 is registered with the
    bare pattern [/images/.*], which workbox-routing, not among the sources,
    turns into a matcher on the href.  A url of the worker's origin is
    matched when the pattern matches anywhere in its href; a url of another
    origin only when the pattern matches from the start of the href, which a
    pattern that begins with a slash never does. *)
Definition imagesMatch (u : Url) : bool :=
  sameOrigin u && JsString.includes (href u) "/images/".

Inductive Target :=
| ToPartialStrategy
| ToImagesStrategy
| ToNormalHandler.

(** Modelled from the spec: the Router, which is workbox-routing and not
    among the sources, hands a request to the first route, in the order of
    registration (sw.js 132, 137, 165), whose matcher accepts the url.  The
    two fonts routes, registered first, match only urls of the fonts origins
    and are left out. *)
Definition first_match (u : Url) : option Target :=
  if partialMatch u then Some ToPartialStrategy
  else if imagesMatch u then Some ToImagesStrategy
  else if normalMatch u then Some ToNormalHandler
  else None.

End Route.

(** ** The handler of the normal route (sw.js 165-229) *)

Import JsString.

Definition head_marker : string := "<!-- %_HEAD_REPLACE_% -->".
Definition content_marker : string := "%_CONTENT_REPLACE_%".

Definition meta_tag (partial : JsonDoc) : string :=
  if Js.truthy_bool (offline partial)
  then "<meta name=" +:+ dq +:+ "offline" +:+ dq +:+ " value=" +:+ dq +:+ "true" +:+ dq +:+ " />"
  else EmptyString.

Definition title_tag (partial : JsonDoc) : string :=
  "<title>" +:+ Js.or_default (title partial) "web.dev" +:+ "</title>".

Definition rssHref (partial : JsonDoc) : string :=
  Js.or_default (rss partial) "/feed.xml".

Definition rssTitle (partial : JsonDoc) : string :=
  if negb (Js.strict_eq (rss partial) (Some "/feed.xml"))
  then Js.to_string (title partial) +:+ " on web.dev"
  else "web.dev feed".

Definition rss_tag (partial : JsonDoc) : string :=
  "<link rel=" +:+ dq +:+ "alternate" +:+ dq +:+ " href=" +:+ dq +:+ rssHref partial +:+ dq
  +:+ " type=" +:+ dq +:+ "application/atom+xml" +:+ dq
  +:+ " data-title=" +:+ dq +:+ rssTitle partial +:+ dq +:+ " />".

(** The second argument of the first [replace]. *)
Definition head_injection (partial : JsonDoc) : string :=
  meta_tag partial +:+ nl +:+ title_tag partial +:+ nl +:+ rss_tag partial.

(** sw.js 223-225 on a template that is a string. *)
Definition hydrate (layoutTemplate : string) (partial : JsonDoc) : string :=
  replace (replace layoutTemplate head_marker (head_injection partial))
          content_marker (Js.to_string (raw partial)).



(** sw.js 190-201: the partial through the strategy, or the offline partial
    when the strategy throws. *)
Definition partial_response (partialPath : string) : M Response :=
  try_catch
    (emit (EvStrategy partialPath) ;;
     fun w => match partialStrategy w partialPath with
              | Some r => (Ok r, w)
              | None => (Throw NetworkError, w)
              end)
    (fun _ => offlinePartialResponse).

Definition unhandled_status (u : Url) (response : Response) : JsError :=
  Error ("unhandled status for normal route '" +:+ pathname u +:+ "': "
         +:+ of_Z (status response)).

(** sw.js 166-184: [inl] is the early redirect, [inr] the path that ends
    with .html. *)
Definition normalise (u : Url) : Response + string :=
  let pathname := pathname u in
  if negb (endsWith pathname ".html") then
    if negb (endsWith pathname "/") then
      inl (Response_redirect (pathname +:+ "/" +:+ search u) 301)
    else inr (pathname +:+ "index.html")
  else inr pathname.

Definition normalHandler (u : Url) : M Response :=
  match normalise u with
  | inl redirect => ret redirect
  | inr pathname =>
      let partialPath := replace_html_suffix pathname in
      response <- partial_response partialPath ;;
      if negb (ok response) then throw (unhandled_status u response)
      else
        partial <- json response ;;
        layoutTemplate <- templateForPartial partial ;;
        match layoutTemplate with
        | None => throw (TypeError "Cannot read properties of undefined (reading 'replace')")
        | Some layoutTemplate =>
            let output := hydrate layoutTemplate partial in
            ret {| status := status response;
                   headers := [("Content-Type", "text/html")];
                   body := BodyText output |}
        end
  end.

(** sw.js 231-242: [None] is the handler returning nothing. *)
Definition catchHandler (u : Url) : M (option Response) :=
  if Route.partialMatch u then
    r <- offlinePartialResponse ;; ret (Some r)
  else if Route.normalMatch u then
    r <- fetch (pathname u +:+ search u) ;; ret (Some r)
  else ret None.

(** What the router does with a request once the normal route is the one
    that gets it ([Route.first_match] tells which route does): the handler
    runs, and an error of the handler goes to the catch handler. *)
Definition normalRoute (u : Url) : M (option Response) :=
  try_catch (r <- normalHandler u ;; ret (Some r)) (fun _ => catchHandler u).

(** ** Install and activate (sw.js 32-76) *)

Definition idb_get (key : string) : M (option string) :=
  emit (EvIdbGet key) ;;
  fun w => (Ok (idb w !! key), w).

Definition idb_set (key value : string) : M unit :=
  emit (EvIdbSet key value) ;;
  fun w => (Ok tt, set_idb (<[key := value]> (idb w)) w).

Definition take_control (c : Client) : Client :=
  {| client_id := client_id c; client_url := client_url c;
     client_type := client_type c; controlled := true |}.

(** [self.clients.claim()] *)
Definition clients_claim : M unit :=
  emit EvClaim ;;
  fun w => (Ok tt, set_clients (map take_control (clients w)) w).

Definition is_window (c : Client) : bool :=
  match client_type c with window => true | _ => false end.

(** [self.clients.matchAll({includeUncontrolled: true, type: 'window'})] *)
Definition clients_matchAll_windows : M (list Client) :=
  emit EvMatchAll ;;
  fun w => (Ok (filter (fun c => is_window c = true) (clients w)), w).

(** [windowClients.map((client) => client.navigate(client.url))] *)
Fixpoint navigate_all (cs : list Client) : M unit :=
  match cs with
  | [] => ret tt
  | c :: rest => emit (EvNavigate (client_id c) (client_url c)) ;; navigate_all rest
  end.

(** Start of a worker instance: the script's top level runs
    [let replacingPreviousServiceWorker = false]. *)
Definition start_instance (w : World) : World := set_replacing false w.

Definition install : M unit :=
  (fun w => (Ok tt, if registration_active w then set_replacing true w else w)) ;;
  updateTemplate ;;
  emit EvSkipWaiting.

(** Modelled from the spec: [cacheNames.runtime] comes from workbox-core; it
    names the legacy unbounded runtime cache.  workbox-core builds the name
    from its prefix, the word runtime and the scope of the registration,
    which for the site's worker is the root of the origin. *)
Definition cacheNames_runtime : string :=
  "workbox-runtime-" +:+ self_location_origin +:+ "/".

(** The first activate listener (sw.js 47-51). *)
Definition activate_cleanup : M unit := emit (EvCacheDelete cacheNames_runtime).

(** The second activate listener (sw.js 53-76). *)
Definition activate : M unit :=
  previousArchitecture <- idb_get idbKeys_architecture ;;
  if Js.strict_eq previousArchitecture (Some serviceWorkerArchitecture) then ret tt
  else
    idb_set idbKeys_architecture serviceWorkerArchitecture ;;
    clients_claim ;;
    replacing <- (fun w => (Ok (replacingPreviousServiceWorker w), w)) ;;
    if (replacing : bool) then
      windowClients <- clients_matchAll_windows ;;
      navigate_all windowClients
    else ret tt.

(** ** Traces *)

(** The events a run from [w] to [w'] added. *)
Definition events_since (w w' : World) : list Event :=
  drop (length (trace w)) (trace w').

(** The run from [w] to [w'] read the template from the cache and then asked
    the network for it. *)
Definition refresh_attempted (w w' : World) : Prop :=
  exists rest,
    events_since w w' = EvCacheMatch templateUrl :: EvFetch templateUrl :: rest.

(** The cached bundle is current for the partial, in the words of the
    specification: same resources version, or built strictly later. *)
Definition cached_is_current (cached partial : JsonDoc) : Prop :=
  resourcesVersion cached = resourcesVersion partial \/
  exists b pb, builtAt cached = Some b /\ builtAt partial = Some pb /\ pb < b.

(** The template of a Template Bundle, in the words of the specification: an
    HTML string that holds the two replacement markers. *)
Definition is_layout (t : string) : Prop :=
  includes t head_marker = true /\ includes t content_marker = true.

(** The record that [updateTemplate] hands to [cache.put]. *)
Definition persisted (raw : JsonDoc) : Response :=
  new_Response (BodyJson (delete_manifest raw)).


(** The urls a bundle's manifest lists. *)
Definition manifest_urls (raw : JsonDoc) : list string :=
  match manifest raw with
  | Some m => map url m
  | None => []
  end.

(** A string without the characters that markers and replacement patterns
    are made of. *)
Definition plain (s : string) : bool :=
  negb (has_char "%" s) && negb (has_char "$" s).

Definition plain_field (a : option string) : bool :=
  match a with
  | Some s => plain s
  | None => true
  end.

(** The navigations among some events. *)
Definition navigations (evs : list Event) : list (nat * string) :=
  omap (fun e => match e with
                 | EvNavigate id u => Some (id, u)
                 | _ => None
                 end) evs.

(** The reloads of the open windows: each window client to its own url. *)
Definition window_reloads (cs : list Client) : list (nat * string) :=
  map (fun c => (client_id c, client_url c)) (filter (fun c => is_window c = true) cs).

(** ** Sample data *)

Module Sample.

Definition layout : string :=
  "<html><head><!-- %_HEAD_REPLACE_% --></head><body>%_CONTENT_REPLACE_%</body></html>".

(** The cached template of the specification's example. *)
Definition bundle : JsonDoc :=
  {| raw := None; title := None; rss := None; offline := None;
     resourcesVersion := Some "r1"; builtAt := Some 10;
     template := Some layout; manifest := None |}.

(** The partial of the specification's example. *)
Definition partial : JsonDoc :=
  {| raw := Some "<p>hi</p>"; title := Some "Hi"; rss := None; offline := None;
     resourcesVersion := Some "r1"; builtAt := Some 5;
     template := None; manifest := None |}.

(** A bundle as the template endpoint serves it. *)
Definition served : JsonDoc :=
  {| raw := None; title := None; rss := None; offline := None;
     resourcesVersion := Some "r2"; builtAt := Some 20;
     template := Some layout;
     manifest := Some [ {| url := "/app.css" |}; {| url := "/offline/index.json" |} ] |}.

(** A development bundle whose template is the empty string. *)
Definition blank_bundle : JsonDoc :=
  {| raw := None; title := None; rss := None; offline := None;
     resourcesVersion := Some EmptyString; builtAt := Some 1;
     template := Some EmptyString; manifest := None |}.

Definition window_client (n : nat) (u : string) : Client :=
  {| client_id := n; client_url := u; client_type := window; controlled := false |}.

(** No network, and [cache] as the core cache. *)
Definition offline_world (cache : gmap string Response) : World :=
  {| coreCache := cache; network := fun _ => None;
     partialStrategy := fun _ => None; idb := ∅;
     replacingPreviousServiceWorker := false; registration_active := false;
     clients := []; trace := [] |}.

Definition cached_world : World :=
  offline_world {[ templateUrl := new_Response (BodyJson bundle) ]}.

Definition blank_world : World :=
  offline_world {[ templateUrl := new_Response (BodyJson blank_bundle) ]}.

(** The template endpoint serves [served]; every other url answers 200. *)
Definition online_world : World :=
  {| coreCache := ∅;
     network := fun u => if String.eqb u templateUrl
                         then Some (new_Response (BodyJson served))
                         else Some (new_Response (BodyText "asset"));
     partialStrategy := fun _ => None; idb := ∅;
     replacingPreviousServiceWorker := false; registration_active := false;
     clients := []; trace := [] |}.

(** The template endpoint serves [served]; no other url can be fetched. *)
Definition flaky_world : World :=
  {| coreCache := ∅;
     network := fun u => if String.eqb u templateUrl
                         then Some (new_Response (BodyJson served))
                         else None;
     partialStrategy := fun _ => None; idb := ∅;
     replacingPreviousServiceWorker := false; registration_active := false;
     clients := []; trace := [] |}.

(** A partial whose body quotes the content marker. *)
Definition quoting_partial : JsonDoc :=
  {| raw := Some "<p>%_CONTENT_REPLACE_%</p>"; title := Some "Markers"; rss := None;
     offline := None; resourcesVersion := Some "r1"; builtAt := Some 5;
     template := None; manifest := None |}.

(** An upgrade: a worker is active, two windows and a worker client are
    open, no architecture tag is stored yet. *)
Definition upgrade_world : World :=
  {| coreCache := ∅;
     network := fun u => if String.eqb u templateUrl
                         then Some (new_Response (BodyJson served))
                         else Some (new_Response (BodyText "asset"));
     partialStrategy := fun _ => None; idb := ∅;
     replacingPreviousServiceWorker := false; registration_active := true;
     clients := [ window_client 1 "https://web.dev/learn/";
                  {| client_id := 2; client_url := "https://web.dev/sw-helper.js";
                     client_type := worker; controlled := false |};
                  window_client 3 "https://web.dev/blog/?tag=css" ];
     trace := [] |}.

(** The partial of /missing/ is a 404 page. *)
Definition not_found : Response :=
  {| status := 404; headers := []; body := BodyText "<h1>Not found</h1>" |}.

Definition missing_world : World :=
  {| coreCache := ∅; network := fun _ => Some not_found;
     partialStrategy := fun _ => Some not_found; idb := ∅;
     replacingPreviousServiceWorker := false; registration_active := false;
     clients := []; trace := [] |}.

Definition page (path query : string) : Url :=
  {| sameOrigin := true; pathname := path; search := query; hash := EmptyString |}.

(** [upgrade_world] once its install listener has run. *)
Definition installed_world : World := (install (start_instance upgrade_world)).2.

End Sample.

(** ** The partial route and what runs leave alone *)

(** sw.js 126-129: [partialStrategy.handle] on the request for [path]. *)
Definition partialStrategy_handle (path : string) : M Response :=
  emit (EvStrategy path) ;;
  fun w => match partialStrategy w path with
           | Some r => (Ok r, w)
           | None => (Throw NetworkError, w)
           end.

(** sw.js 131-132 with 231-242: the router on a request that the partial
    route matched; an error of the strategy goes to the catch handler. *)
Definition partialRoute (u : Url) : M (option Response) :=
  try_catch (r <- partialStrategy_handle (pathname u +:+ search u) ;; ret (Some r))
            (fun _ => catchHandler u).

(** Every run of [c] relates the world it starts in to the one it ends in. *)
Definition preserves {A} (R : World -> World -> Prop) (c : M A) : Prop :=
  forall w, R w (c w).2.

(** The trace only grows. *)
Definition extends (w w' : World) : Prop :=
  exists evs, trace w' = trace w ++ evs.

(** Everything but the core cache and the trace is as it was. *)
Definition same_surroundings (w w' : World) : Prop :=
  idb w' = idb w /\ clients w' = clients w /\
  replacingPreviousServiceWorker w' = replacingPreviousServiceWorker w /\
  registration_active w' = registration_active w /\
  network w' = network w /\ partialStrategy w' = partialStrategy w.

(** What install and activate keep of the worker's life is as it was: the
    idb store, the clients and the install flag. *)
Definition same_lifecycle (w w' : World) : Prop :=
  idb w' = idb w /\ clients w' = clients w /\
  replacingPreviousServiceWorker w' = replacingPreviousServiceWorker w.

(** The core cache is as it was. *)
Definition same_cache (w w' : World) : Prop := coreCache w' = coreCache w.

(** Every url of the list can be fetched, with a response that
    [cache.addAll] takes. *)
Definition all_fetchable (net : string -> option Response) (urls : list string) : Prop :=
  forall u, u ∈ urls -> exists r, net u = Some r /\ cacheable r = true.

(** The url of a same-origin request for a path and a query. *)
Definition same_origin_url (path query : string) : Url :=
  {| sameOrigin := true; pathname := path; search := query; hash := EmptyString |}.

(** ** Further sample data *)

Module Scenario.

(** The bundle of the sample is cached, the strategy serves the sample
    partial, the network is down. *)
Definition warm_world : World :=
  {| coreCache := {[ templateUrl := new_Response (BodyJson Sample.bundle) ]};
     network := fun _ => None;
     partialStrategy := fun _ => Some (new_Response (BodyJson Sample.partial));
     idb := ∅; replacingPreviousServiceWorker := false;
     registration_active := false; clients := []; trace := [] |}.






(** A partial built against the resources of [Sample.served]. *)
Definition fresh_partial : JsonDoc :=
  {| raw := Some "<p>new</p>"; title := None; rss := None; offline := None;
     resourcesVersion := Some "r2"; builtAt := Some 30;
     template := None; manifest := None |}.

End Scenario.

(** * Properties *)

Lemma events_since_app w w' evs :
  trace w' = trace w ++ evs -> events_since w w' = evs.
Proof.
  unfold events_since. intros ->. by rewrite drop_app_length.
Qed.

Lemma events_since_log e w : events_since w (log e w) = [e].
Proof. by apply events_since_app. Qed.

Ltac run :=
  repeat (progress (
    unfold bind, ret, throw, try_catch, emit, fetch, json, caches_match,
      cache_put, cache_addAll, idb_get, idb_set, clients_claim,
      clients_matchAll_windows in *;
    cbn [fst snd coreCache network partialStrategy idb clients trace
         replacingPreviousServiceWorker registration_active
         log set_coreCache set_idb set_clients set_replacing] in *)).

(** What [updateTemplate] adds to the trace starts with the fetch of the
    template. *)
Lemma updateTemplate_trace w :
  exists rest, trace (updateTemplate w).2 = trace w ++ EvFetch templateUrl :: rest.
Proof.
  unfold updateTemplate. run.
  destruct (network w templateUrl) as [resp|]; run; [|by eexists].
  destruct (body resp) as [| |raw]; run; try by eexists.
  destruct (manifest raw) as [m|]; run.
  - destruct (fetch_all _ _); run; rewrite <- !app_assoc; by eexists.
  - rewrite <- !app_assoc; by eexists.
Qed.

Lemma updateTemplate_first_event w r w' :
  updateTemplate w = (r, w') ->
  exists rest, trace w' = trace w ++ EvFetch templateUrl :: rest.
Proof.
  intros H. destruct (updateTemplate_trace w) as [rest Hrest].
  rewrite H in Hrest. by exists rest.
Qed.

Lemma refresh_or_fallback_trace (fallbackTemplate : option string) w1 :
  exists rest,
    trace (refresh_or_fallback fallbackTemplate w1).2
    = trace w1 ++ EvFetch templateUrl :: rest.
Proof.
  unfold refresh_or_fallback, try_catch, bind.
  destruct (updateTemplate w1) as [[v|e] w2] eqn:E;
    destruct (updateTemplate_first_event _ _ _ E) as [rest Hrest]; exists rest.
  - destruct v; cbn; [done|]. destruct (Js.truthy fallbackTemplate); cbn; done.
  - destruct (Js.truthy fallbackTemplate); cbn; done.
Qed.

(** When the refresh throws, the catch block answers with the fallback if it
    is truthy and rethrows otherwise. *)
Lemma refresh_or_fallback_throw (fallbackTemplate : option string) w1 e w2 :
  updateTemplate w1 = (Throw e, w2) ->
  refresh_or_fallback fallbackTemplate w1 =
    (if Js.truthy fallbackTemplate then Ok fallbackTemplate else Throw e, w2).
Proof.
  intros H. unfold refresh_or_fallback, try_catch, bind. rewrite H.
  by destruct (Js.truthy fallbackTemplate).
Qed.

(** A refresh that succeeds hands back the template string, and the
    destructuring [const {template} = ...] of that string reads a property
    that no string has. *)
Lemma refresh_or_fallback_success (fallbackTemplate : option string) w1 t w2 :
  updateTemplate w1 = (Ok (Some t), w2) ->
  refresh_or_fallback fallbackTemplate w1 = (Ok None, w2).
Proof.
  intros H. unfold refresh_or_fallback, try_catch, bind. by rewrite H.
Qed.

(** The three ways through [templateForPartial]. *)
Lemma templateForPartial_hit partial w resp cached :
  coreCache w !! templateUrl = Some resp ->
  body resp = BodyJson cached ->
  Js.truthy (resourcesVersion cached) = true ->
  Js.strict_eq (resourcesVersion cached) (resourcesVersion partial)
    || Js.gt (builtAt cached) (builtAt partial) = true ->
  templateForPartial partial w
  = (Ok (template cached), log (EvCacheMatch templateUrl) w).
Proof.
  intros Hc Hb Ht Hd. unfold templateForPartial. run.
  rewrite Hc. run. rewrite Hb, Ht. cbn. by rewrite Hd.
Qed.

Lemma templateForPartial_stale partial w resp cached :
  coreCache w !! templateUrl = Some resp ->
  body resp = BodyJson cached ->
  Js.truthy (resourcesVersion cached) = false \/
  Js.strict_eq (resourcesVersion cached) (resourcesVersion partial)
    || Js.gt (builtAt cached) (builtAt partial) = false ->
  templateForPartial partial w
  = refresh_or_fallback (template cached) (log (EvCacheMatch templateUrl) w).
Proof.
  intros Hc Hb Hd. unfold templateForPartial. run.
  rewrite Hc. run. rewrite Hb.
  destruct (Js.truthy (resourcesVersion cached)); cbn; [|done].
  destruct Hd as [? | ->]; done.
Qed.

Lemma templateForPartial_miss partial w :
  coreCache w !! templateUrl = None ->
  templateForPartial partial w
  = refresh_or_fallback None (log (EvCacheMatch templateUrl) w).
Proof.
  intros Hc. unfold templateForPartial. run. by rewrite Hc.
Qed.

Lemma refresh_attempted_intro w w' fallbackTemplate :
  w' = (refresh_or_fallback fallbackTemplate (log (EvCacheMatch templateUrl) w)).2 ->
  refresh_attempted w w'.
Proof.
  intros ->.
  destruct (refresh_or_fallback_trace fallbackTemplate
              (log (EvCacheMatch templateUrl) w)) as [rest Hrest].
  exists rest. apply events_since_app. rewrite Hrest. cbn.
  by rewrite <- app_assoc.
Qed.

Lemma truthy_Some s : Js.truthy (Some s) = true <-> s <> EmptyString.
Proof.
  cbn. destruct (String.eqb_spec s EmptyString); cbn; split; congruence.
Qed.

Lemma strict_eq_true a b : Js.strict_eq a b = true <-> a = b.
Proof. unfold Js.strict_eq. by rewrite bool_decide_eq_true. Qed.

Lemma gt_true a b :
  Js.gt a b = true <-> exists x y, a = Some x /\ b = Some y /\ y < x.
Proof.
  unfold Js.gt. destruct a as [x|], b as [y|]; split;
    try (intros (?&?&?&?&?); congruence); try discriminate.
  - intros H. exists x, y. repeat split. lia.
  - intros (?&?&[= ->]&[= ->]&?). lia.
Qed.

Lemma current_reflect cached partial :
  Js.strict_eq (resourcesVersion cached) (resourcesVersion partial)
    || Js.gt (builtAt cached) (builtAt partial) = true
  <-> cached_is_current cached partial.
Proof.
  unfold cached_is_current.
  rewrite orb_true_iff, strict_eq_true, gt_true. reflexivity.
Qed.

(** C1. With a cached bundle whose resourcesVersion is a non-empty string,
    [templateForPartial] answers with the cached template, its only effect
    being the cache read, exactly when the bundle is current for the partial
    (same resourcesVersion, or a strictly greater builtAt); when it is not
    current, and whenever the cached resourcesVersion is the empty string, a
    refresh from the network is attempted. *)
Theorem templateForPartial_cached_iff_current
    (partial : JsonDoc) (w : World) (resp : Response) (cached : JsonDoc) :
  coreCache w !! templateUrl = Some resp ->
  body resp = BodyJson cached ->
  (forall rv, resourcesVersion cached = Some rv -> rv <> EmptyString ->
     (templateForPartial partial w
        = (Ok (template cached), log (EvCacheMatch templateUrl) w)
      <-> cached_is_current cached partial) /\
     (~ cached_is_current cached partial ->
      refresh_attempted w (templateForPartial partial w).2)) /\
  (resourcesVersion cached = Some EmptyString ->
   refresh_attempted w (templateForPartial partial w).2).
Proof.
  intros Hc Hb. split.
  - intros rv Hrv Hne.
    assert (Ht : Js.truthy (resourcesVersion cached) = true)
      by (rewrite Hrv; by apply truthy_Some).
    assert (Hstale : ~ cached_is_current cached partial ->
                     refresh_attempted w (templateForPartial partial w).2).
    { intros Hn. apply refresh_attempted_intro with (template cached).
      f_equal. apply templateForPartial_stale with resp; [done..|].
      right. apply not_true_is_false. by rewrite current_reflect. }
    split; [split|done].
    + intros Hrun.
      destruct (Js.strict_eq (resourcesVersion cached) (resourcesVersion partial)
                || Js.gt (builtAt cached) (builtAt partial)) eqn:Hd.
      * by apply current_reflect.
      * exfalso.
        assert (Hn : ~ cached_is_current cached partial)
          by (rewrite <- current_reflect; congruence).
        destruct (Hstale Hn) as [rest Hrest].
        rewrite Hrun in Hrest. cbn [snd] in Hrest.
        by rewrite events_since_log in Hrest.
    + intros Hcur. apply templateForPartial_hit with resp; [done..|].
      by apply current_reflect.
  - intros Hrv. apply refresh_attempted_intro with (template cached).
    f_equal. apply templateForPartial_stale with resp; [done..|].
    left. by rewrite Hrv.
Qed.

Lemma templateForPartial_cached_iff_current_witness :
  templateForPartial Sample.partial Sample.cached_world
  = (Ok (Some Sample.layout), log (EvCacheMatch templateUrl) Sample.cached_world).
Proof.
  destruct (templateForPartial_cached_iff_current
              Sample.partial Sample.cached_world
              (new_Response (BodyJson Sample.bundle)) Sample.bundle
              eq_refl eq_refl) as [H _].
  destruct (H "r1" eq_refl ltac:(discriminate)) as [[_ Hhit] _].
  apply Hhit. left. reflexivity.
Defined.

(** C10. For a partial that has neither resourcesVersion nor builtAt, and a
    cached bundle whose resourcesVersion is a non-empty string,
    [templateForPartial] never answers from the cache at once: it reads the
    cache, then fetches the template; and when that refresh throws, the
    answer is the cached template (the catch block's fallback) or, without a
    usable one, the error. *)
Theorem templateForPartial_unversioned_partial_refreshes
    (partial : JsonDoc) (w : World) (resp : Response) (cached : JsonDoc) (rv : string) :
  resourcesVersion partial = None ->
  builtAt partial = None ->
  coreCache w !! templateUrl = Some resp ->
  body resp = BodyJson cached ->
  resourcesVersion cached = Some rv ->
  rv <> EmptyString ->
  refresh_attempted w (templateForPartial partial w).2 /\
  templateForPartial partial w
    <> (Ok (template cached), log (EvCacheMatch templateUrl) w) /\
  (forall e w2,
     updateTemplate (log (EvCacheMatch templateUrl) w) = (Throw e, w2) ->
     templateForPartial partial w
     = (if Js.truthy (template cached) then Ok (template cached) else Throw e, w2)).
Proof.
  intros Hprv Hpb Hc Hb Hrv Hne.
  assert (Hrun : templateForPartial partial w
                 = refresh_or_fallback (template cached)
                     (log (EvCacheMatch templateUrl) w)).
  { apply templateForPartial_stale with resp; [done..|]. right.
    rewrite Hprv, Hpb, Hrv. unfold Js.strict_eq.
    rewrite bool_decide_eq_false_2 by discriminate.
    by destruct (builtAt cached). }
  assert (Hatt : refresh_attempted w (templateForPartial partial w).2)
    by (apply refresh_attempted_intro with (template cached); by rewrite Hrun).
  split; [done|]. split.
  - intros Heq. destruct Hatt as [rest Hrest].
    rewrite Heq in Hrest. cbn [snd] in Hrest.
    by rewrite events_since_log in Hrest.
  - intros e w2 Hthrow. rewrite Hrun. by apply refresh_or_fallback_throw.
Qed.

Lemma templateForPartial_unversioned_partial_refreshes_witness :
  refresh_attempted Sample.cached_world
    (templateForPartial dev_offline_partial Sample.cached_world).2 /\
  templateForPartial dev_offline_partial Sample.cached_world
  = (Ok (Some Sample.layout),
     log (EvFetch templateUrl) (log (EvCacheMatch templateUrl) Sample.cached_world)).
Proof.
  destruct (templateForPartial_unversioned_partial_refreshes
              dev_offline_partial Sample.cached_world
              (new_Response (BodyJson Sample.bundle)) Sample.bundle "r1"
              eq_refl eq_refl eq_refl eq_refl eq_refl ltac:(discriminate))
    as (Hatt & _ & Hfall).
  split; [exact Hatt|].
  apply (Hfall NetworkError). reflexivity.
Defined.

(** What the catch block of the refresh answers with.  When the refresh
    throws: with no cached bundle the error propagates; with a cached bundle
    that [templateForPartial] chose to refresh, the answer is the cached
    template when that is a non-empty string, and the error propagates when
    the cached template is absent or the empty string. *)
Lemma templateForPartial_refresh_failure
    (partial : JsonDoc) (w : World) (e : JsError) (w2 : World) :
  updateTemplate (log (EvCacheMatch templateUrl) w) = (Throw e, w2) ->
  (coreCache w !! templateUrl = None ->
   templateForPartial partial w = (Throw e, w2)) /\
  (forall resp cached,
     coreCache w !! templateUrl = Some resp ->
     body resp = BodyJson cached ->
     (Js.truthy (resourcesVersion cached) = true ->
      ~ cached_is_current cached partial) ->
     (forall t, template cached = Some t -> t <> EmptyString ->
        templateForPartial partial w = (Ok (Some t), w2)) /\
     (template cached = None \/ template cached = Some EmptyString ->
        templateForPartial partial w = (Throw e, w2))).
Proof.
  intros Hthrow. split.
  - intros Hc. rewrite templateForPartial_miss by done.
    by rewrite (refresh_or_fallback_throw _ _ _ _ Hthrow).
  - intros resp cached Hc Hb Hstale.
    assert (Hrun : templateForPartial partial w
                   = (if Js.truthy (template cached)
                      then Ok (template cached) else Throw e, w2)).
    { rewrite <- (refresh_or_fallback_throw _ _ _ _ Hthrow).
      apply templateForPartial_stale with resp; [done..|].
      destruct (Js.truthy (resourcesVersion cached)); [right|by left].
      apply not_true_is_false. rewrite current_reflect. by apply Hstale. }
    split.
    + intros t Ht Hne. rewrite Hrun, Ht.
      by rewrite (proj2 (truthy_Some t) Hne).
    + intros [Ht|Ht]; by rewrite Hrun, Ht.
Qed.

(** C6. When [templateForPartial] goes for a refresh and [updateTemplate]
    throws: with a cached Template Bundle, whose template holds the two
    markers, the cached template is returned; with no cached bundle the error
    propagates to the caller. *)
Theorem templateForPartial_falls_back_to_cached_template
    (partial : JsonDoc) (w : World) (e : JsError) (w2 : World) :
  updateTemplate (log (EvCacheMatch templateUrl) w) = (Throw e, w2) ->
  (forall resp cached t,
     coreCache w !! templateUrl = Some resp ->
     body resp = BodyJson cached ->
     template cached = Some t ->
     is_layout t ->
     (Js.truthy (resourcesVersion cached) = true ->
      ~ cached_is_current cached partial) ->
     templateForPartial partial w = (Ok (Some t), w2)) /\
  (coreCache w !! templateUrl = None ->
   templateForPartial partial w = (Throw e, w2)).
Proof.
  intros Hthrow.
  destruct (templateForPartial_refresh_failure partial w e w2 Hthrow) as [Hnone Hsome].
  split; [|done].
  intros resp cached t Hc Hb Ht [_ Hmark] Hstale.
  destruct (Hsome resp cached Hc Hb Hstale) as [Hok _].
  apply Hok; [done|]. by intros ->.
Qed.

Lemma templateForPartial_falls_back_to_cached_template_witness :
  templateForPartial dev_offline_partial Sample.cached_world
  = (Ok (Some Sample.layout),
     log (EvFetch templateUrl) (log (EvCacheMatch templateUrl) Sample.cached_world)).
Proof.
  destruct (templateForPartial_falls_back_to_cached_template
              dev_offline_partial Sample.cached_world NetworkError
              (log (EvFetch templateUrl)
                 (log (EvCacheMatch templateUrl) Sample.cached_world))
              eq_refl) as [H _].
  apply (H (new_Response (BodyJson Sample.bundle)) Sample.bundle Sample.layout);
    try reflexivity.
  - split; reflexivity.
  - intros _ [Hrv|(b & pb & _ & Hpb & _)]; discriminate.
Defined.

(** A cached template that is the empty string, which no Template Bundle
    has, is no fallback: the catch block tests [fallbackTemplate] for
    truthiness, and the error of the refresh propagates. *)
Lemma templateForPartial_blank_fallback_rethrows :
  coreCache Sample.blank_world !! templateUrl
    = Some (new_Response (BodyJson Sample.blank_bundle)) /\
  template Sample.blank_bundle = Some EmptyString /\
  (updateTemplate (log (EvCacheMatch templateUrl) Sample.blank_world)).1
    = Throw NetworkError /\
  (templateForPartial Sample.partial Sample.blank_world).1 = Throw NetworkError.
Proof. repeat split; reflexivity. Qed.

(** ** updateTemplate and the core cache *)

Lemma fetch_each_keys net urls entries :
  fetch_each net urls = Some entries -> map fst entries = urls.
Proof.
  revert entries. induction urls as [|u rest IH]; intros entries; cbn.
  - by intros [= <-].
  - destruct (net u) as [r|]; [|done]. destruct (cacheable r); [|done].
    destruct (fetch_each net rest) as [l|]; [|done].
    intros [= <-]. cbn. f_equal. by apply IH.
Qed.

Lemma fetch_all_each net urls entries :
  fetch_all net urls = Some entries ->
  fetch_each net urls = Some entries /\ NoDup urls.
Proof.
  unfold fetch_all. destruct (fetch_each net urls) as [l|]; [|done].
  case_bool_decide; [|done]. by intros [= <-].
Qed.

Lemma fetch_all_keys net urls entries :
  fetch_all net urls = Some entries -> map fst entries = urls.
Proof. intros [H _]%fetch_all_each. by apply fetch_each_keys in H. Qed.

Lemma put_all_lookup_other entries (c : gmap string Response) k :
  k ∉ map fst entries -> put_all entries c !! k = c !! k.
Proof.
  unfold put_all. revert c. induction entries as [|[u r] rest IH]; intros c Hk; cbn.
  - done.
  - cbn in Hk. apply not_elem_of_cons in Hk as [Hne Hk].
    rewrite IH by done. by rewrite lookup_insert_ne.
Qed.

(** [updateTemplate] once the fetch and the parse have succeeded. *)
Lemma updateTemplate_parsed w resp raw :
  network w templateUrl = Some resp ->
  body resp = BodyJson raw ->
  updateTemplate w =
    let w1 := set_coreCache (<[templateUrl := persisted raw]> (coreCache w))
                (log (EvCachePut templateUrl (persisted raw))
                   (log (EvFetch templateUrl) w)) in
    match manifest raw with
    | Some m => (cache_addAll (map url m) ;; ret (template raw)) w1
    | None => (Throw (TypeError "manifest is undefined"), w1)
    end.
Proof.
  intros Hn Hb. unfold updateTemplate. run. rewrite Hn. run. rewrite Hb. run.
  by destruct (manifest raw).
Qed.

Lemma updateTemplate_offline w :
  network w templateUrl = None ->
  updateTemplate w = (Throw NetworkError, log (EvFetch templateUrl) w).
Proof. intros Hn. unfold updateTemplate. run. by rewrite Hn. Qed.

Lemma updateTemplate_unparsable w resp :
  network w templateUrl = Some resp ->
  (forall raw, body resp <> BodyJson raw) ->
  updateTemplate w = (Throw SyntaxError, log (EvFetch templateUrl) w).
Proof.
  intros Hn Hb. unfold updateTemplate. run. rewrite Hn. run.
  destruct (body resp) as [| |raw] eqn:E; run; try done.
  by destruct (Hb raw).
Qed.

(** The events of a run of [updateTemplate]. *)
Lemma updateTemplate_events w :
  events_since w (updateTemplate w).2 = [EvFetch templateUrl] \/
  exists resp raw tail,
    network w templateUrl = Some resp /\ body resp = BodyJson raw /\
    events_since w (updateTemplate w).2
    = EvFetch templateUrl :: EvCachePut templateUrl (persisted raw) :: tail /\
    forall u r, EvCachePut u r ∉ tail.
Proof.
  destruct (network w templateUrl) as [resp|] eqn:Hn.
  2:{ left. rewrite updateTemplate_offline by done. apply events_since_log. }
  destruct (body resp) as [| |raw] eqn:Hb.
  1,2: left; rewrite (updateTemplate_unparsable _ resp) by (done || congruence);
       apply events_since_log.
  right. exists resp, raw.
  rewrite (updateTemplate_parsed _ _ _ Hn Hb). cbn zeta.
  destruct (manifest raw) as [m|].
  - exists [EvCacheAddAll (map url m)]. repeat split; [| |].
    + done.
    + run. apply events_since_app.
      destruct (fetch_all _ _); run; by rewrite <- !app_assoc.
    + intros u r Hin. apply list_elem_of_singleton in Hin. discriminate.
  - exists []. repeat split; [done| |].
    + apply events_since_app. run. by rewrite <- !app_assoc.
    + intros u r Hin. by apply not_elem_of_nil in Hin.
Qed.

(** C9. When the fetch of the template rejects, or the body is not JSON,
    [updateTemplate] throws with the core cache as it was; a put into the
    cache is seen only in runs whose fetch and parse succeeded; and when the
    run throws after that (the manifest is missing, or an asset cannot be
    precached) the template written before stays in the cache. *)
Theorem updateTemplate_write_only_after_parse (w : World) :
  (network w templateUrl = None ->
   (updateTemplate w).1 = Throw NetworkError /\
   coreCache (updateTemplate w).2 = coreCache w) /\
  (forall resp,
     network w templateUrl = Some resp ->
     (forall raw, body resp <> BodyJson raw) ->
     (updateTemplate w).1 = Throw SyntaxError /\
     coreCache (updateTemplate w).2 = coreCache w) /\
  (forall u r, EvCachePut u r ∈ events_since w (updateTemplate w).2 ->
     exists resp raw, network w templateUrl = Some resp /\ body resp = BodyJson raw) /\
  (forall resp raw e w',
     network w templateUrl = Some resp ->
     body resp = BodyJson raw ->
     updateTemplate w = (Throw e, w') ->
     coreCache w' = <[templateUrl := persisted raw]> (coreCache w)).
Proof.
  split; [|split; [|split]].
  - intros Hn. by rewrite updateTemplate_offline.
  - intros resp Hn Hb. by rewrite (updateTemplate_unparsable _ resp).
  - intros u r Hin.
    destruct (updateTemplate_events w) as [Hev|(resp & raw & tail & Hn & Hb & _)].
    + rewrite Hev in Hin. apply list_elem_of_singleton in Hin. discriminate.
    + by exists resp, raw.
  - intros resp raw e w' Hn Hb. rewrite (updateTemplate_parsed _ _ _ Hn Hb). cbn zeta.
    destruct (manifest raw) as [m|]; run.
    + destruct (fetch_all _ _); run; [discriminate|]. by intros [= <- <-].
    + by intros [= <- <-].
Qed.

Lemma updateTemplate_write_only_after_parse_witness :
  (updateTemplate (Sample.offline_world ∅)).1 = Throw NetworkError /\
  coreCache (updateTemplate (Sample.offline_world ∅)).2 = ∅ /\
  coreCache (updateTemplate Sample.flaky_world).2
  = <[templateUrl := persisted Sample.served]> ∅.
Proof.
  destruct (updateTemplate_write_only_after_parse (Sample.offline_world ∅))
    as (Hoff & _).
  destruct (Hoff eq_refl) as [Hthrow Hsame].
  destruct (updateTemplate_write_only_after_parse Sample.flaky_world)
    as (_ & _ & _ & Hkeep).
  split; [exact Hthrow|]. split; [exact Hsame|].
  apply (Hkeep (new_Response (BodyJson Sample.served)) Sample.served
               (TypeError "Request failed")); reflexivity.
Defined.

(** ** Facts about strings *)

Module JsStringFacts.

Lemma append_cons c s t : String c s +:+ t = String c (s +:+ t).
Proof. reflexivity. Qed.

Lemma append_nil_l s : EmptyString +:+ s = s.
Proof. reflexivity. Qed.

Lemma append_assoc s t u : (s +:+ t) +:+ u = s +:+ t +:+ u.
Proof. induction s as [|c s IH]; [done|]. by rewrite !append_cons, IH. Qed.

Lemma has_char_app c s t : has_char c (s +:+ t) = has_char c s || has_char c t.
Proof.
  induction s as [|d s IH]; [done|].
  rewrite append_cons. cbn. by rewrite IH, orb_assoc.
Qed.

Lemma strip_prefix_spec pat s rest :
  strip_prefix pat s = Some rest <-> s = pat +:+ rest.
Proof.
  revert s. induction pat as [|a pat IH]; intros s; cbn.
  - rewrite append_nil_l. split; congruence.
  - destruct s as [|b s]; [split; discriminate|].
    rewrite append_cons. destruct (Ascii.eqb_spec a b) as [->|Hne].
    + rewrite IH. split; congruence.
    + split; congruence.
Qed.

Lemma strip_prefix_app pat rest : strip_prefix pat (pat +:+ rest) = Some rest.
Proof. by apply strip_prefix_spec. Qed.

(** [endsWith] says what its name says. *)
Lemma endsWith_spec s suffix :
  endsWith s suffix = true <-> exists p, s = p +:+ suffix.
Proof.
  induction s as [|c s IH]; cbn [endsWith].
  - rewrite orb_false_r, String.eqb_eq. split.
    + intros <-. by exists EmptyString.
    + intros [p Hp]. destruct p; [done|discriminate].
  - rewrite orb_true_iff, String.eqb_eq, IH. split.
    + intros [<-|[p ->]]; [by exists EmptyString|]. by exists (String c p).
    + intros [[|d p] Hp]; [by left|]. right. exists p.
      rewrite append_cons in Hp. congruence.
Qed.

(** The first [c] of a string is where it is. *)
Lemma first_char_unique c u v r1 r2 :
  has_char c u = false -> has_char c v = false ->
  u +:+ String c r1 = v +:+ String c r2 -> u = v.
Proof.
  revert v. induction u as [|x u IH]; intros [|y v]; cbn; try done.
  - rewrite append_nil_l, append_cons. intros _ Hv [= <- _].
    by rewrite Ascii.eqb_refl in Hv.
  - rewrite append_nil_l, append_cons. intros Hu _ [= -> _].
    by rewrite Ascii.eqb_refl in Hu.
  - rewrite !append_cons. intros Hu Hv [= -> Heq].
    apply orb_false_iff in Hu as [_ Hu]. apply orb_false_iff in Hv as [_ Hv].
    f_equal. by apply IH.
Qed.

Lemma length_append s t :
  String.length (s +:+ t) = (String.length s + String.length t)%nat.
Proof. induction s as [|c s IH]; [done|]. rewrite append_cons. cbn. by rewrite IH. Qed.

Lemma find_first_here pat rest :
  find_first pat (pat +:+ rest) = Some (EmptyString, rest).
Proof.
  destruct (pat +:+ rest) eqn:E; cbn [find_first]; rewrite <- E;
    by rewrite strip_prefix_app.
Qed.

(** A pattern is found right after [pre] when one of its characters occurs
    neither before that character in the pattern nor in [pre]. *)
Lemma find_first_at c a b pre post :
  has_char c a = false ->
  has_char c pre = false ->
  find_first (a +:+ String c b) (pre +:+ (a +:+ String c b) +:+ post)
  = Some (pre, post).
Proof.
  intros Ha. induction pre as [|x pre IH]; intros Hpre.
  - rewrite append_nil_l. apply find_first_here.
  - cbn in Hpre. apply orb_false_iff in Hpre as [Hx Hpre].
    rewrite append_cons. cbn [find_first].
    destruct (strip_prefix _ _) as [rest|] eqn:E.
    + exfalso. apply strip_prefix_spec in E.
      assert (E' : (String x pre +:+ a) +:+ String c (b +:+ post)
                   = a +:+ String c (b +:+ rest))
        by (repeat (rewrite ?append_assoc, ?append_cons in E;
                    rewrite ?append_assoc, ?append_cons); exact E).
      apply first_char_unique in E'; [| |done].
      * apply (f_equal String.length) in E'.
        rewrite append_cons in E'. cbn in E'. rewrite length_append in E'. lia.
      * rewrite has_char_app. cbn. by rewrite Hx, Hpre, Ha.
    + by rewrite IH.
Qed.

Lemma find_first_none c pat s :
  has_char c pat = true -> has_char c s = false -> find_first pat s = None.
Proof.
  intros Hp. induction s as [|x s IH]; intros Hs.
  - cbn. destruct (strip_prefix pat EmptyString) as [r|] eqn:E; [|done].
    apply strip_prefix_spec in E. rewrite E, has_char_app, Hp in Hs. done.
  - cbn [find_first].
    destruct (strip_prefix pat (String x s)) as [r|] eqn:E.
    + apply strip_prefix_spec in E. rewrite E, has_char_app, Hp in Hs. done.
    + cbn in Hs. apply orb_false_iff in Hs as [_ Hs]. by rewrite IH.
Qed.

Lemma includes_false c pat s :
  has_char c pat = true -> has_char c s = false -> includes s pat = false.
Proof. intros Hp Hs. unfold includes. by rewrite (find_first_none c). Qed.

Lemma GetSubstitution_plain matched before after repl :
  has_char "$" repl = false ->
  GetSubstitution matched before after repl = repl.
Proof.
  induction repl as [|c r IH]; [done|]. cbn [has_char GetSubstitution].
  intros H. apply orb_false_iff in H as [Hc Hr].
  rewrite Ascii.eqb_sym, Hc. by rewrite IH.
Qed.

(** [replace] on a string where the pattern sits right after [pre]. *)
Lemma replace_at c a b pre post repl :
  has_char c a = false ->
  has_char c pre = false ->
  has_char "$" repl = false ->
  replace (pre +:+ (a +:+ String c b) +:+ post) (a +:+ String c b) repl
  = pre +:+ repl +:+ post.
Proof.
  intros Ha Hpre Hrepl. unfold replace.
  rewrite find_first_at by done. by rewrite GetSubstitution_plain.
Qed.

End JsStringFacts.

Import JsStringFacts.

Lemma plain_spec s :
  plain s = true <-> has_char "%" s = false /\ has_char "$" s = false.
Proof.
  unfold plain. rewrite andb_true_iff, !negb_true_iff. reflexivity.
Qed.

Lemma plain_app s t : plain s = true -> plain t = true -> plain (s +:+ t) = true.
Proof.
  rewrite !plain_spec, !has_char_app. intros [-> ->] [-> ->]. done.
Qed.

Lemma plain_or_default a d :
  plain_field a = true -> plain d = true -> plain (Js.or_default a d) = true.
Proof.
  destruct a as [s|]; cbn; [|done]. by destruct (String.eqb s EmptyString).
Qed.

Lemma plain_to_string a : plain_field a = true -> plain (Js.to_string a) = true.
Proof. by destruct a. Qed.

Lemma plain_head_injection partial :
  plain_field (title partial) = true ->
  plain_field (rss partial) = true ->
  plain (head_injection partial) = true.
Proof.
  intros Ht Hr.
  unfold head_injection, meta_tag, title_tag, rss_tag, rssTitle, rssHref.
  repeat apply plain_app; try reflexivity.
  - by destruct (Js.truthy_bool _).
  - by apply plain_or_default.
  - by apply plain_or_default.
  - destruct (negb _); [|done]. apply plain_app; [|done]. by apply plain_to_string.
Qed.

(** *** First occurrences *)










(** ** Install and activate *)

Lemma updateTemplate_keeps_flags w :
  replacingPreviousServiceWorker (updateTemplate w).2 = replacingPreviousServiceWorker w /\
  registration_active (updateTemplate w).2 = registration_active w.
Proof.
  unfold updateTemplate. run.
  destruct (network w templateUrl) as [resp|]; run; [|done].
  destruct (body resp) as [| |raw]; run; try done.
  destruct (manifest raw) as [m|]; run; [|done].
  destruct (fetch_all _ _); run; done.
Qed.

(** After a successful install on a fresh instance the flag tells whether a
    worker was active. *)
Lemma install_sets_flag w0 w :
  install (start_instance w0) = (Ok tt, w) ->
  replacingPreviousServiceWorker w = registration_active w0.
Proof.
  unfold install, start_instance. run.
  set (w1 := if registration_active w0 then _ else _).
  assert (Hw1 : replacingPreviousServiceWorker w1 = registration_active w0)
    by (subst w1; by destruct (registration_active w0)).
  destruct (updateTemplate_keeps_flags w1) as [Hflag _].
  destruct (updateTemplate w1) as [[v|e] w2]; run; [|discriminate].
  intros [= <-]. cbn in *. congruence.
Qed.

Lemma navigate_all_run cs w :
  navigate_all cs w
  = (Ok tt,
     {| coreCache := coreCache w; network := network w;
        partialStrategy := partialStrategy w; idb := idb w;
        replacingPreviousServiceWorker := replacingPreviousServiceWorker w;
        registration_active := registration_active w; clients := clients w;
        trace := trace w ++ map (fun c => EvNavigate (client_id c) (client_url c)) cs |}).
Proof.
  revert w. induction cs as [|c cs IH]; intros w; cbn [navigate_all].
  - run. cbn. rewrite app_nil_r. by destruct w.
  - run. rewrite IH. cbn. by rewrite <- app_assoc.
Qed.

Lemma navigations_of_navigate cs :
  navigations (map (fun c => EvNavigate (client_id c) (client_url c)) cs)
  = map (fun c => (client_id c, client_url c)) cs.
Proof.
  unfold navigations. induction cs as [|c cs IH]; [done|]. cbn. by rewrite IH.
Qed.

Lemma Forall_take_control cs :
  Forall (fun c => controlled c = true) (map take_control cs).
Proof. induction cs; cbn; constructor; done. Qed.

(** C2. The activate listener always completes.  With the stored tag equal
    to the worker's tag it claims nothing and reloads nothing, and leaves the
    store and the clients as they were.  With any other stored tag, or none,
    it stores the worker's tag and claims every client, and it reloads the
    open windows, each to its own url, exactly if the flag of the install
    listener is set.  A reload therefore happens only if a worker was active
    at install time: after a successful install on a fresh instance the flag
    is set exactly if there was one. *)
Theorem activate_by_architecture (w : World) :
  let w' := (activate w).2 in
  let evs := events_since w w' in
  (activate w).1 = Ok tt /\
  (idb w !! idbKeys_architecture = Some serviceWorkerArchitecture ->
   (EvClaim ∉ evs) /\ navigations evs = [] /\
   idb w' = idb w /\ clients w' = clients w) /\
  (idb w !! idbKeys_architecture <> Some serviceWorkerArchitecture ->
   idb w' !! idbKeys_architecture = Some serviceWorkerArchitecture /\
   (EvClaim ∈ evs) /\
   Forall (fun c => controlled c = true) (clients w') /\
   navigations evs
   = if replacingPreviousServiceWorker w then window_reloads (clients w) else []) /\
  (forall w0,
     install (start_instance w0) = (Ok tt, w) ->
     navigations evs <> [] -> registration_active w0 = true).
Proof.
  assert (Hsame : idb w !! idbKeys_architecture = Some serviceWorkerArchitecture ->
                  activate w = (Ok tt, log (EvIdbGet idbKeys_architecture) w)).
  { intros H. unfold activate. run. rewrite H.
    unfold Js.strict_eq. by rewrite bool_decide_eq_true_2. }
  assert (Hdiff : idb w !! idbKeys_architecture <> Some serviceWorkerArchitecture ->
            activate w
            = (Ok tt,
               {| coreCache := coreCache w; network := network w;
                  partialStrategy := partialStrategy w;
                  idb := <[idbKeys_architecture := serviceWorkerArchitecture]> (idb w);
                  replacingPreviousServiceWorker := replacingPreviousServiceWorker w;
                  registration_active := registration_active w;
                  clients := map take_control (clients w);
                  trace := trace w ++
                    [EvIdbGet idbKeys_architecture;
                     EvIdbSet idbKeys_architecture serviceWorkerArchitecture;
                     EvClaim] ++
                    (if replacingPreviousServiceWorker w
                     then EvMatchAll ::
                          map (fun c => EvNavigate (client_id c) (client_url c))
                            (filter (fun c => is_window c = true)
                               (map take_control (clients w)))
                     else []) |})).
  { intros H. unfold activate. run.
    unfold Js.strict_eq. rewrite bool_decide_eq_false_2 by done. run.
    destruct (replacingPreviousServiceWorker w) eqn:Hflag; run.
    - rewrite navigate_all_run. cbn. rewrite Hflag.
      by rewrite <- !app_assoc.
    - unfold set_clients, set_idb, log. cbn. rewrite Hflag. by rewrite <- !app_assoc. }
  assert (Hwin : forall cs,
            map (fun c => (client_id c, client_url c))
              (filter (fun c => is_window c = true) (map take_control cs))
            = window_reloads cs).
  { unfold window_reloads. induction cs as [|c cs IH]; [done|].
    cbn [map]. rewrite !filter_cons.
    change (is_window (take_control c)) with (is_window c).
    destruct (decide (is_window c = true)); cbn; by rewrite IH. }
  assert (Hnav : idb w !! idbKeys_architecture <> Some serviceWorkerArchitecture ->
            navigations (events_since w (activate w).2)
            = if replacingPreviousServiceWorker w
              then window_reloads (clients w) else []).
  { intros H. rewrite (Hdiff H). cbn [snd].
    erewrite events_since_app by reflexivity.
    destruct (replacingPreviousServiceWorker w); [|done].
    cbn. by rewrite navigations_of_navigate, Hwin. }
  cbn zeta. split; [|split; [|split]].
  - destruct (decide (idb w !! idbKeys_architecture = Some serviceWorkerArchitecture)) as [H|H].
    + by rewrite Hsame.
    + by rewrite Hdiff.
  - intros H. rewrite (Hsame H). cbn [snd]. rewrite events_since_log.
    repeat split; try done.
    intros Hin. apply list_elem_of_singleton in Hin. discriminate.
  - intros H. split; [|split; [|split]].
    + rewrite (Hdiff H). cbn. apply lookup_insert_eq.
    + rewrite (Hdiff H). cbn [snd]. erewrite events_since_app by reflexivity.
      apply elem_of_app. left. set_solver.
    + rewrite (Hdiff H). cbn. apply Forall_take_control.
    + by apply Hnav.
  - intros w0 Hinstall Hreload.
    rewrite <- (install_sets_flag _ _ Hinstall).
    destruct (decide (idb w !! idbKeys_architecture = Some serviceWorkerArchitecture)) as [H|H].
    + rewrite (Hsame H) in Hreload. cbn [snd] in Hreload.
      by rewrite events_since_log in Hreload.
    + rewrite (Hnav H) in Hreload.
      by destruct (replacingPreviousServiceWorker w).
Qed.

Lemma activate_by_architecture_witness :
  navigations (events_since Sample.installed_world (activate Sample.installed_world).2)
  = [(1%nat, "https://web.dev/learn/"); (3%nat, "https://web.dev/blog/?tag=css")] /\
  registration_active Sample.upgrade_world = true.
Proof.
  destruct (activate_by_architecture Sample.installed_world) as (_ & _ & Hdiff & Hinst).
  assert (Hnav : navigations (events_since Sample.installed_world
                                (activate Sample.installed_world).2)
                 = [(1%nat, "https://web.dev/learn/");
                    (3%nat, "https://web.dev/blog/?tag=css")]).
  { destruct Hdiff as (_ & _ & _ & Hnav); [vm_compute; discriminate|]. exact Hnav. }
  split; [exact Hnav|].
  apply (Hinst Sample.upgrade_world eq_refl). rewrite Hnav. discriminate.
Defined.

(** ** The normal route *)

(** Where the partial response comes from. *)
Lemma partial_response_cases partialPath w :
  match partialStrategy w partialPath with
  | Some r => partial_response partialPath w = (Ok r, log (EvStrategy partialPath) w)
  | None => partial_response partialPath w
            = offlinePartialResponse (log (EvStrategy partialPath) w)
  end.
Proof.
  unfold partial_response. run. by destruct (partialStrategy w partialPath).
Qed.

(** No path is both page-shaped and partial-shaped. *)
Lemma page_tail_not_partial s seg wordy :
  Route.page_tail s = true -> Route.partial_tail seg wordy s = false.
Proof.
  revert seg wordy. induction s as [|c s IH]; intros seg wordy; cbn [Route.page_tail].
  - intros _. cbn. by rewrite andb_false_r.
  - intros H. apply orb_true_iff in H as [H|H].
    + apply andb_true_iff in H as [Hc Hs]. cbn [Route.partial_tail].
      assert (Hjson : String.eqb (String c s) ".json" = false).
      { apply String.eqb_neq. intros [= -> _]. discriminate. }
      rewrite Hjson, andb_false_r. cbn [orb].
      destruct (Ascii.eqb c "/"); [by rewrite IH, andb_false_r|].
      destruct (Route.is_word c); [by apply IH|].
      destruct (Ascii.eqb c "-"); [by apply IH|done].
    + apply String.eqb_eq in H. rewrite H. by destruct seg, wordy.
Qed.

Lemma normalMatch_not_partialMatch u :
  Route.normalMatch u = true -> Route.partialMatch u = false.
Proof.
  unfold Route.normalMatch, Route.partialMatch, Route.matchSameOriginRegExp.
  intros H. apply andb_true_iff in H as [-> H]. cbn [andb].
  unfold Route.normalPathRe in H. unfold Route.partialPathRe.
  destruct (pathname u) as [|c rest]; [done|].
  apply andb_true_iff in H as [-> H]. by apply page_tail_not_partial.
Qed.

(** C4. When the response for the partial, from the strategy or from the
    offline substitute after the strategy threw, is not ok, the handler
    throws the unhandled-status error without touching the template or
    building a page, and the router hands the request to the catch handler,
    which for a page-shaped url fetches the request from the network. *)
Theorem normalHandler_throws_on_bad_status
    (u : Url) (w : World) (path : string) (response : Response) (w1 : World) :
  normalise u = inr path ->
  partial_response (replace_html_suffix path) w = (Ok response, w1) ->
  ok response = false ->
  normalHandler u w = (Throw (unhandled_status u response), w1) /\
  normalRoute u w = catchHandler u w1 /\
  (Route.normalMatch u = true ->
   normalRoute u w = (r <- fetch (pathname u +:+ search u) ;; ret (Some r)) w1).
Proof.
  intros Hpath Hresp Hok.
  assert (Hrun : normalHandler u w = (Throw (unhandled_status u response), w1)).
  { unfold normalHandler. rewrite Hpath. unfold bind at 1. rewrite Hresp.
    by rewrite Hok. }
  assert (Hroute : normalRoute u w = catchHandler u w1).
  { unfold normalRoute, try_catch, bind. by rewrite Hrun. }
  split; [done|]. split; [done|].
  intros Hm. rewrite Hroute. unfold catchHandler.
  by rewrite (normalMatch_not_partialMatch _ Hm), Hm.
Qed.

Lemma normalHandler_throws_on_bad_status_witness :
  normalHandler (Sample.page "/missing/" EmptyString) Sample.missing_world
  = (Throw (Error "unhandled status for normal route '/missing/': 404"),
     log (EvStrategy "/missing/index.json") Sample.missing_world) /\
  normalRoute (Sample.page "/missing/" EmptyString) Sample.missing_world
  = (Ok (Some Sample.not_found),
     log (EvFetch "/missing/")
       (log (EvStrategy "/missing/index.json") Sample.missing_world)).
Proof.
  destruct (normalHandler_throws_on_bad_status
              (Sample.page "/missing/" EmptyString) Sample.missing_world
              "/missing/index.html" Sample.not_found
              (log (EvStrategy "/missing/index.json") Sample.missing_world)
              eq_refl eq_refl eq_refl) as (Hthrow & _ & Hnet).
  split; [exact Hthrow|]. rewrite Hnet by reflexivity. reflexivity.
Defined.

(** ** The feed link *)

Lemma rssTitle_without_rss partial :
  rss partial = None ->
  rssTitle partial = Js.to_string (title partial) +:+ " on web.dev".
Proof. unfold rssTitle. by intros ->. Qed.

Lemma rssTitle_custom partial href :
  rss partial = Some href -> href <> "/feed.xml" ->
  rssTitle partial = Js.to_string (title partial) +:+ " on web.dev".
Proof.
  unfold rssTitle, Js.strict_eq. intros -> Hne.
  rewrite bool_decide_eq_false_2; [done|congruence].
Qed.

Lemma rssTitle_default partial :
  rss partial = Some "/feed.xml" -> rssTitle partial = "web.dev feed".
Proof. unfold rssTitle. by intros ->. Qed.

(** C5 at a partial without rss, the one of the specification's example and
    the development offline partial of the worker itself: the link points to
    the default feed, and its title is not the default title but the
    partial's title followed by [on web.dev]. *)
Lemma rssTitle_of_partial_without_rss :
  rss Sample.partial = None /\
  rssHref Sample.partial = "/feed.xml" /\
  rssTitle Sample.partial = "Hi on web.dev" /\
  rss_tag Sample.partial
  = "<link rel=" +:+ dq +:+ "alternate" +:+ dq +:+ " href=" +:+ dq +:+ "/feed.xml" +:+ dq
    +:+ " type=" +:+ dq +:+ "application/atom+xml" +:+ dq
    +:+ " data-title=" +:+ dq +:+ "Hi on web.dev" +:+ dq +:+ " />" /\
  rss dev_offline_partial = None /\
  rssTitle dev_offline_partial = " on web.dev" /\
  rssTitle Sample.partial <> "web.dev feed".
Proof. repeat split; try reflexivity. discriminate. Qed.

(** * Further properties *)

(** ** Relations that every step keeps *)

Section Preservation.

Context (R : World -> World -> Prop) `{!PreOrder R}.

Lemma preserves_ret {A} (a : A) : preserves R (ret a).
Proof. intros w. cbn. reflexivity. Qed.

Lemma preserves_throw {A} (e : JsError) : preserves R (@throw A e).
Proof. intros w. cbn. reflexivity. Qed.

Lemma preserves_bind {A B} (c : M A) (k : A -> M B) :
  preserves R c -> (forall a, preserves R (k a)) -> preserves R (bind c k).
Proof.
  intros Hc Hk w. unfold bind. specialize (Hc w).
  destruct (c w) as [[a|e] w1]; cbn in *; [|done].
  etrans; [exact Hc|]. apply Hk.
Qed.

Lemma preserves_try_catch {A} (c : M A) (h : JsError -> M A) :
  preserves R c -> (forall e, preserves R (h e)) -> preserves R (try_catch c h).
Proof.
  intros Hc Hh w. unfold try_catch. specialize (Hc w).
  destruct (c w) as [[a|e] w1]; cbn in *; [done|].
  etrans; [exact Hc|]. apply Hh.
Qed.

End Preservation.

Global Instance extends_preorder : PreOrder extends.
Proof.
  split.
  - intros w. exists []. by rewrite app_nil_r.
  - intros w1 w2 w3 [e1 H1] [e2 H2]. exists (e1 ++ e2).
    by rewrite H2, H1, app_assoc.
Qed.

Global Instance same_surroundings_preorder : PreOrder same_surroundings.
Proof.
  split.
  - by intros w.
  - intros w1 w2 w3 (?&?&?&?&?&?) (?&?&?&?&?&?).
    repeat split; congruence.
Qed.

Global Instance same_cache_preorder : PreOrder same_cache.
Proof.
  split; [by intros w|]. unfold same_cache. intros w1 w2 w3 ? ?. congruence.
Qed.

Lemma json_keeps R `{!PreOrder R} r : preserves R (json r).
Proof.
  unfold json. destruct (body r);
    first [apply preserves_ret | apply preserves_throw]; apply _.
Qed.

Lemma destructure_template_keeps R `{!PreOrder R} v :
  preserves R (destructure_template v).
Proof.
  unfold destructure_template. destruct v;
    first [apply preserves_ret | apply preserves_throw]; apply _.
Qed.

(** Steps of a proof that a computation keeps a relation. *)
Ltac keep :=
  repeat match goal with
    | |- preserves _ (ret _) => apply preserves_ret; apply _
    | |- preserves _ (throw _) => apply preserves_throw; apply _
    | |- preserves _ (json _) => apply json_keeps; apply _
    | |- preserves _ (destructure_template _) =>
        apply destructure_template_keeps; apply _
    | |- preserves _ (bind _ _) => apply preserves_bind; [apply _ | | intros ?]
    | |- preserves _ (try_catch _ _) =>
        apply preserves_try_catch; [apply _ | | intros ?]
    | |- preserves _ (match ?x with _ => _ end) => destruct x
    end.

Lemma extends_log e w : extends w (log e w).
Proof. by exists [e]. Qed.

Lemma emit_extends e : preserves extends (emit e).
Proof. intros w. apply extends_log. Qed.

Lemma emit_surroundings e : preserves same_surroundings (emit e).
Proof. by intros w. Qed.

Lemma emit_cache e : preserves same_cache (emit e).
Proof. by intros w. Qed.

Lemma fetch_extends u : preserves extends (fetch u).
Proof.
  intros w. unfold fetch. run. destruct (network w u); apply extends_log.
Qed.

Lemma fetch_surroundings u : preserves same_surroundings (fetch u).
Proof. intros w. unfold fetch. run. by destruct (network w u). Qed.

Lemma caches_match_extends u : preserves extends (caches_match u).
Proof. intros w. apply extends_log. Qed.

Lemma caches_match_surroundings u : preserves same_surroundings (caches_match u).
Proof. by intros w. Qed.

Lemma caches_match_cache u : preserves same_cache (caches_match u).
Proof. by intros w. Qed.

Lemma cache_put_extends u r : preserves extends (cache_put u r).
Proof. intros w. by exists [EvCachePut u r]. Qed.

Lemma cache_put_surroundings u r : preserves same_surroundings (cache_put u r).
Proof. by intros w. Qed.

Lemma cache_addAll_extends urls : preserves extends (cache_addAll urls).
Proof.
  intros w. unfold cache_addAll. run.
  destruct (fetch_all _ _); by exists [EvCacheAddAll urls].
Qed.

Lemma cache_addAll_surroundings urls : preserves same_surroundings (cache_addAll urls).
Proof. intros w. unfold cache_addAll. run. by destruct (fetch_all _ _). Qed.

Lemma updateTemplate_extends : preserves extends updateTemplate.
Proof.
  unfold updateTemplate. keep;
    auto using fetch_extends, cache_put_extends, cache_addAll_extends.
Qed.

Lemma updateTemplate_surroundings : preserves same_surroundings updateTemplate.
Proof.
  unfold updateTemplate. keep;
    auto using fetch_surroundings, cache_put_surroundings, cache_addAll_surroundings.
Qed.

Lemma refresh_or_fallback_extends f : preserves extends (refresh_or_fallback f).
Proof. unfold refresh_or_fallback. keep; auto using updateTemplate_extends. Qed.

Lemma refresh_or_fallback_surroundings f :
  preserves same_surroundings (refresh_or_fallback f).
Proof. unfold refresh_or_fallback. keep; auto using updateTemplate_surroundings. Qed.

Lemma templateForPartial_extends partial : preserves extends (templateForPartial partial).
Proof.
  unfold templateForPartial. keep;
    auto using caches_match_extends, refresh_or_fallback_extends.
Qed.

Lemma templateForPartial_surroundings partial :
  preserves same_surroundings (templateForPartial partial).
Proof.
  unfold templateForPartial. keep;
    auto using caches_match_surroundings, refresh_or_fallback_surroundings.
Qed.

Lemma offlinePartialResponse_run w :
  offlinePartialResponse w
  = (Ok (default (new_Response (BodyJson dev_offline_partial))
                 (coreCache w !! "/offline/index.json")),
     log (EvCacheMatch "/offline/index.json") w).
Proof.
  unfold offlinePartialResponse. run. by destruct (coreCache w !! _).
Qed.

Lemma partial_response_first_event path w :
  exists rest,
    trace (partial_response path w).2 = trace w ++ EvStrategy path :: rest.
Proof.
  pose proof (partial_response_cases path w) as H.
  destruct (partialStrategy w path) as [r|]; rewrite H.
  - by exists [].
  - rewrite offlinePartialResponse_run. cbn.
    eexists. by rewrite <- app_assoc.
Qed.

Lemma partial_response_surroundings path :
  preserves same_surroundings (partial_response path).
Proof.
  intros w. pose proof (partial_response_cases path w) as H.
  destruct (partialStrategy w path) as [r|]; rewrite H; [done|].
  by rewrite offlinePartialResponse_run.
Qed.

Lemma partial_response_cache path : preserves same_cache (partial_response path).
Proof.
  intros w. pose proof (partial_response_cases path w) as H.
  destruct (partialStrategy w path) as [r|]; rewrite H; [done|].
  by rewrite offlinePartialResponse_run.
Qed.

(** What the handler does once the path is normalised. *)
Lemma normalHandler_normalised u path :
  normalise u = inr path ->
  normalHandler u
  = (response <- partial_response (replace_html_suffix path) ;;
     if negb (ok response) then throw (unhandled_status u response)
     else
       partial <- json response ;;
       layoutTemplate <- templateForPartial partial ;;
       match layoutTemplate with
       | None => throw (TypeError "Cannot read properties of undefined (reading 'replace')")
       | Some layoutTemplate =>
           ret {| status := status response;
                  headers := [("Content-Type", "text/html")];
                  body := BodyText (hydrate layoutTemplate partial) |}
       end).
Proof. intros H. unfold normalHandler. by rewrite H. Qed.

Lemma normalHandler_tail_keeps R `{!PreOrder R} u response :
  (forall partial, preserves R (templateForPartial partial)) ->
  preserves R
    (if negb (ok response) then throw (unhandled_status u response)
     else
       partial <- json response ;;
       layoutTemplate <- templateForPartial partial ;;
       match layoutTemplate with
       | None => throw (TypeError "Cannot read properties of undefined (reading 'replace')")
       | Some layoutTemplate =>
           ret {| status := status response;
                  headers := [("Content-Type", "text/html")];
                  body := BodyText (hydrate layoutTemplate partial) |}
       end).
Proof.
  intros Ht. keep. apply Ht.
Qed.

Lemma normalHandler_surroundings u : preserves same_surroundings (normalHandler u).
Proof.
  destruct (normalise u) as [r|path] eqn:Hn.
  - unfold normalHandler. rewrite Hn. keep.
  - rewrite (normalHandler_normalised _ _ Hn).
    apply preserves_bind; [apply _|apply partial_response_surroundings|].
    intros response. apply normalHandler_tail_keeps; [apply _|].
    apply templateForPartial_surroundings.
Qed.

(** ** Paths *)

Lemma append_last_inj p q a b :
  p +:+ String a EmptyString = q +:+ String b EmptyString -> a = b.
Proof.
  revert q. induction p as [|x p IH]; intros [|y q]; rewrite ?append_nil_l, ?append_cons.
  - by intros [= ->].
  - intros [= _ H]. by destruct q.
  - intros [= _ H]. by destruct p.
  - intros [= _ H]. by apply (IH q).
Qed.

Lemma endsWith_app p suffix : endsWith (p +:+ suffix) suffix = true.
Proof. apply endsWith_spec. by exists p. Qed.

Lemma endsWith_slash_not_html s :
  endsWith s "/" = true -> endsWith s ".html" = false.
Proof.
  intros [p ->]%endsWith_spec. apply not_true_is_false.
  intros [q Hq]%endsWith_spec.
  change ".html" with (".htm" +:+ "l") in Hq. rewrite <- append_assoc in Hq.
  by apply append_last_inj in Hq.
Qed.

Lemma endsWith_tail c s suffix :
  endsWith (String c s) suffix = false -> endsWith s suffix = false.
Proof. cbn [endsWith]. by intros [_ ?]%orb_false_iff. Qed.

Lemma replace_html_suffix_app q :
  replace_html_suffix (q +:+ ".html") = q +:+ ".json".
Proof.
  induction q as [|c q IH]; [done|].
  rewrite !append_cons. cbn [replace_html_suffix].
  assert (Hne : String.eqb (String c (q +:+ ".html")) ".html" = false).
  { apply String.eqb_neq. intros H. apply (f_equal String.length) in H.
    cbn in H. rewrite length_append in H. cbn in H. lia. }
  by rewrite Hne, IH.
Qed.

Lemma is_page_char_not_dot c : Route.is_page_char c = true -> Ascii.eqb "." c = false.
Proof.
  intros H. destruct (Ascii.eqb_spec "." c) as [<-|]; [discriminate|done].
Qed.

Lemma page_tail_dots s :
  Route.page_tail s = true ->
  has_char "." s = false \/
  exists p, s = p +:+ ".html" /\ has_char "." p = false.
Proof.
  induction s as [|c s IH]; [by left|]. cbn [Route.page_tail].
  intros [[Hc Hs]%andb_true_iff | ->%String.eqb_eq]%orb_true_iff.
  - destruct (IH Hs) as [Hno|(p & -> & Hp)].
    + left. cbn [has_char]. by rewrite (is_page_char_not_dot _ Hc).
    + right. exists (String c p). split; [done|].
      cbn [has_char]. by rewrite (is_page_char_not_dot _ Hc).
  - right. by exists EmptyString.
Qed.

Lemma page_tail_app_slash s :
  Route.page_tail s = true -> endsWith s ".html" = false ->
  Route.page_tail (s +:+ "/") = true.
Proof.
  induction s as [|c s IH]; [done|]. cbn [Route.page_tail].
  intros [[Hc Hs]%andb_true_iff|Heq%String.eqb_eq]%orb_true_iff Hends.
  - rewrite append_cons. cbn [Route.page_tail].
    rewrite Hc, IH; [done..|]. by apply endsWith_tail in Hends.
  - rewrite Heq in Hends. discriminate.
Qed.

(** X1. No url is matched both by the partial route and by the normal
    route, so the order in which the two are registered cannot change which
    of them handles a request. *)
Theorem route_matchers_disjoint (u : Url) :
  Route.partialMatch u && Route.normalMatch u = false.
Proof.
  destruct (Route.normalMatch u) eqn:H; [|by rewrite andb_false_r].
  by rewrite (normalMatch_not_partialMatch _ H).
Qed.

(** X2. A path that the normal route matches holds no dot at all, or holds
    its only dot in a trailing .html. *)
Theorem normal_path_dot_only_in_html_suffix (s : string) :
  Route.normalPathRe s = true ->
  has_char "." s = false \/
  exists p, s = p +:+ ".html" /\ has_char "." p = false.
Proof.
  unfold Route.normalPathRe. destruct s as [|c rest]; [done|].
  intros [->%Ascii.eqb_eq Ht]%andb_true_iff.
  destruct (page_tail_dots _ Ht) as [Hno|(p & -> & Hp)].
  - by left.
  - right. by exists (String "/" p).
Qed.

Lemma normal_path_dot_only_in_html_suffix_witness :
  has_char "." "/test/page/index.html" = false \/
  exists p, "/test/page/index.html" = p +:+ ".html" /\ has_char "." p = false.
Proof.
  apply (normal_path_dot_only_in_html_suffix "/test/page/index.html"). reflexivity.
Defined.

(** A reference that begins with one slash only keeps the worker's
    origin. *)
Lemma resolve_single_slash c rest tail :
  UrlParser.is_slash c = false ->
  UrlParser.resolve (String "/" (String c rest) +:+ tail)
  = self_location_origin +:+ String "/" (String c rest) +:+ tail.
Proof.
  intros Hc. rewrite !append_cons. unfold UrlParser.resolve.
  by rewrite Hc, andb_false_r.
Qed.

Lemma page_char_not_backslash c :
  Route.is_page_char c = true -> Ascii.eqb c "\" = false.
Proof. destruct (Ascii.eqb_spec c "\") as [->|]; [discriminate|done]. Qed.

(** The reference that the handler hands to Response.redirect resolves to
    the same path with a slash on the worker's origin when the path does not
    begin with two slashes. *)
Lemma resolve_on_site u :
  Route.normalMatch u = true ->
  endsWith (pathname u) "/" = false ->
  endsWith (pathname u) ".html" = false ->
  strip_prefix "//" (pathname u) = None ->
  UrlParser.resolve (pathname u +:+ "/" +:+ search u)
  = self_location_origin +:+ pathname u +:+ "/" +:+ search u.
Proof.
  intros Hm Hslash Hhtml Hone.
  unfold Route.normalMatch, Route.matchSameOriginRegExp, Route.normalPathRe in Hm.
  apply andb_true_iff in Hm as [_ Hm].
  destruct (pathname u) as [|c [|b rest]]; [done| |].
  - apply andb_true_iff in Hm as [->%Ascii.eqb_eq _]. discriminate.
  - apply andb_true_iff in Hm as [->%Ascii.eqb_eq Ht].
    cbn [Route.page_tail] in Ht. apply orb_true_iff in Ht as [Ht|Ht].
    + apply andb_true_iff in Ht as [Hb _].
      rewrite resolve_single_slash; [done|].
      unfold UrlParser.is_slash. rewrite (page_char_not_backslash b Hb), orb_false_r.
      cbn [strip_prefix] in Hone. rewrite Ascii.eqb_refl in Hone.
      rewrite Ascii.eqb_sym. by destruct (Ascii.eqb "/" b).
    + apply String.eqb_eq in Ht. rewrite Ht in Hhtml. discriminate.
Qed.

(** C3. For a page-shaped path that ends neither with a slash nor with
    .html, the handler answers at once, before any fetch or cache access,
    with a 301 whose Location is what the path, a slash and the query
    resolve to against the worker's location.  For a path that does not
    begin with two slashes this is the same path with a trailing slash on
    the site, the query kept.  A path that begins with two slashes is a
    scheme-relative reference: the request for //evil?a=1 on the site is
    redirected to https://evil/?a=1, another host, and not to the same path
    with a trailing slash. *)
Theorem normalHandler_redirect_location :
  (forall (u : Url) (w : World),
     Route.normalMatch u = true ->
     endsWith (pathname u) "/" = false ->
     endsWith (pathname u) ".html" = false ->
     normalHandler u w
     = (Ok {| status := 301;
              headers := [("Location",
                           UrlParser.resolve (pathname u +:+ "/" +:+ search u))];
              body := BodyEmpty |}, w) /\
     (strip_prefix "//" (pathname u) = None ->
      UrlParser.resolve (pathname u +:+ "/" +:+ search u)
      = self_location_origin +:+ pathname u +:+ "/" +:+ search u)) /\
  (Route.normalMatch (Sample.page "//evil" "?a=1") = true /\
   Route.first_match (Sample.page "//evil" "?a=1") = Some Route.ToNormalHandler /\
   endsWith "//evil" "/" = false /\
   endsWith "//evil" ".html" = false /\
   (forall w : World,
      normalHandler (Sample.page "//evil" "?a=1") w
      = (Ok {| status := 301; headers := [("Location", "https://evil/?a=1")];
               body := BodyEmpty |}, w)) /\
   "https://evil/?a=1" <> self_location_origin +:+ "//evil" +:+ "/" +:+ "?a=1").
Proof.
  split.
  - intros u w Hm Hslash Hhtml. split; [|by apply resolve_on_site].
    unfold normalHandler, normalise. by rewrite Hhtml, Hslash.
  - repeat split; try reflexivity. discriminate.
Qed.

Lemma normalHandler_redirect_location_witness :
  normalHandler (same_origin_url "/foo-bar" "?a=1") Sample.online_world
  = (Ok {| status := 301;
           headers := [("Location", "https://web.dev/foo-bar/?a=1")];
           body := BodyEmpty |}, Sample.online_world).
Proof.
  destruct normalHandler_redirect_location as [H _].
  exact (proj1 (H (same_origin_url "/foo-bar" "?a=1") Sample.online_world
                  eq_refl eq_refl eq_refl)).
Defined.

(** X3. The redirect of a path that does not begin with two slashes stays on
    the site and is not followed by a second one: its Location is the
    worker's origin, the path, a slash and the query; a same-origin request
    for that url passes the matcher of the normal route, goes to the normal
    handler unless its href holds /images/, which the images route takes
    first, and the handler normalises it to the path followed by
    /index.html. *)
Theorem redirect_target_is_not_redirected (u : Url) :
  Route.normalMatch u = true ->
  endsWith (pathname u) "/" = false ->
  endsWith (pathname u) ".html" = false ->
  strip_prefix "//" (pathname u) = None ->
  let target := same_origin_url (pathname u +:+ "/") (search u) in
  normalise u
  = inl {| status := 301;
           headers := [("Location",
                        self_location_origin +:+ pathname u +:+ "/" +:+ search u)];
           body := BodyEmpty |} /\
  Route.href target = self_location_origin +:+ pathname u +:+ "/" +:+ search u /\
  Route.normalMatch target = true /\
  Route.first_match target
  = Some (if Route.imagesMatch target
          then Route.ToImagesStrategy else Route.ToNormalHandler) /\
  normalise target = inr (pathname u +:+ "/index.html").
Proof.
  intros Hm Hslash Hhtml Hone target.
  assert (Htarget : Route.normalMatch target = true).
  { unfold Route.normalMatch, Route.matchSameOriginRegExp in *.
    apply andb_true_iff in Hm as [_ Hm]. cbn.
    unfold Route.normalPathRe in *. destruct (pathname u) as [|c rest]; [done|].
    apply andb_true_iff in Hm as [Hc Ht]. rewrite append_cons, Hc. cbn [andb].
    apply page_tail_app_slash; [done|]. by apply endsWith_tail in Hhtml. }
  split; [|split; [|split; [|split]]].
  - unfold normalise. rewrite Hhtml, Hslash. cbn [negb].
    unfold Response_redirect. by rewrite resolve_on_site.
  - unfold Route.href, target. cbn [pathname search hash same_origin_url].
    rewrite !append_assoc. do 3 f_equal.
    induction (search u) as [|x q IH]; [done|]. by rewrite append_cons, IH.
  - done.
  - unfold Route.first_match. rewrite Htarget.
    rewrite (normalMatch_not_partialMatch _ Htarget).
    by destruct (Route.imagesMatch target).
  - unfold normalise, target. cbn [pathname same_origin_url].
    rewrite (endsWith_slash_not_html (pathname u +:+ "/")) by apply endsWith_app.
    rewrite endsWith_app. cbn [negb]. by rewrite append_assoc.
Qed.

Lemma redirect_target_is_not_redirected_witness :
  normalise (same_origin_url "/foo-bar" "?a=1")
  = inl {| status := 301;
           headers := [("Location", "https://web.dev/foo-bar/?a=1")];
           body := BodyEmpty |} /\
  Route.first_match (same_origin_url "/foo-bar/" "?a=1") = Some Route.ToNormalHandler /\
  normalise (same_origin_url "/foo-bar/" "?a=1") = inr "/foo-bar/index.html".
Proof.
  destruct (redirect_target_is_not_redirected (same_origin_url "/foo-bar" "?a=1")
              eq_refl eq_refl eq_refl eq_refl) as (H1 & _ & _ & H4 & H5).
  split; [exact H1|]. split; [exact H4|exact H5].
Defined.

Lemma normalHandler_first_event u path w :
  normalise u = inr path ->
  exists rest,
    events_since w (normalHandler u w).2
    = EvStrategy (replace_html_suffix path) :: rest.
Proof.
  intros Hn. rewrite (normalHandler_normalised _ _ Hn). unfold bind at 1.
  destruct (partial_response_first_event (replace_html_suffix path) w) as [r1 H1].
  destruct (partial_response _ w) as [[response|e] w1]; cbn [snd] in *.
  - pose proof (normalHandler_tail_keeps extends u response
                  templateForPartial_extends w1) as [r2 H2].
    exists (r1 ++ r2). apply events_since_app.
    rewrite H2, H1. by rewrite <- app_assoc.
  - exists r1. by apply events_since_app.
Qed.

(** X4. For a path that ends with a slash the first thing the handler does is
    to ask the partial strategy for that path followed by index.json. *)
Theorem normalHandler_slash_asks_for_index_json (u : Url) (w : World) :
  endsWith (pathname u) "/" = true ->
  exists rest,
    events_since w (normalHandler u w).2
    = EvStrategy (pathname u +:+ "index.json") :: rest.
Proof.
  intros Hslash.
  assert (Hn : normalise u = inr (pathname u +:+ "index.html")).
  { unfold normalise. by rewrite (endsWith_slash_not_html _ Hslash), Hslash. }
  destruct (normalHandler_first_event _ _ w Hn) as [rest Hrest].
  exists rest. rewrite Hrest. do 2 f_equal.
  change "index.html" with ("index" +:+ ".html").
  rewrite <- append_assoc, replace_html_suffix_app. by rewrite append_assoc.
Qed.

Lemma normalHandler_slash_asks_for_index_json_witness :
  exists rest,
    events_since Sample.missing_world
      (normalHandler (same_origin_url "/zing/hello/" EmptyString) Sample.missing_world).2
    = EvStrategy "/zing/hello/index.json" :: rest.
Proof.
  apply (normalHandler_slash_asks_for_index_json
           (same_origin_url "/zing/hello/" EmptyString)).
  reflexivity.
Defined.

(** X5. For a path that ends with .html the first thing the handler does is
    to ask the partial strategy for the path with .json in place of that
    .html. *)
Theorem normalHandler_html_asks_for_json (u : Url) (w : World) (p : string) :
  pathname u = p +:+ ".html" ->
  exists rest,
    events_since w (normalHandler u w).2 = EvStrategy (p +:+ ".json") :: rest.
Proof.
  intros Hp.
  assert (Hn : normalise u = inr (p +:+ ".html")).
  { unfold normalise. by rewrite Hp, endsWith_app. }
  destruct (normalHandler_first_event _ _ w Hn) as [rest Hrest].
  exists rest. by rewrite Hrest, replace_html_suffix_app.
Qed.

Lemma normalHandler_html_asks_for_json_witness :
  exists rest,
    events_since Sample.missing_world
      (normalHandler (same_origin_url "/hello/other.html" EmptyString)
         Sample.missing_world).2
    = EvStrategy "/hello/other.json" :: rest.
Proof.
  apply (normalHandler_html_asks_for_json
           (same_origin_url "/hello/other.html" EmptyString) _ "/hello/other").
  reflexivity.
Defined.

(** ** Templates and pages *)

Lemma truthy_nonempty t : t <> EmptyString -> Js.truthy (Some t) = true.
Proof. apply truthy_Some. Qed.

(** With the network down [templateForPartial] answers with the cached
    template whichever way it goes. *)
Lemma templateForPartial_offline_run partial w resp cached t :
  network w templateUrl = None ->
  coreCache w !! templateUrl = Some resp ->
  body resp = BodyJson cached ->
  template cached = Some t ->
  t <> EmptyString ->
  (templateForPartial partial w).1 = Ok (Some t) /\
  coreCache (templateForPartial partial w).2 = coreCache w.
Proof.
  intros Hn Hc Hb Ht Hne.
  destruct (Js.truthy (resourcesVersion cached)) eqn:Hrv;
    [destruct (Js.strict_eq (resourcesVersion cached) (resourcesVersion partial)
               || Js.gt (builtAt cached) (builtAt partial)) eqn:Hd|].
  - rewrite (templateForPartial_hit _ _ _ _ Hc Hb Hrv Hd). by rewrite Ht.
  - rewrite (templateForPartial_stale _ _ _ _ Hc Hb (or_intror Hd)).
    rewrite (refresh_or_fallback_throw _ _ NetworkError
               (log (EvFetch templateUrl) (log (EvCacheMatch templateUrl) w)))
      by (by apply updateTemplate_offline).
    by rewrite Ht, truthy_nonempty.
  - rewrite (templateForPartial_stale partial _ _ _ Hc Hb (or_introl Hrv)).
    rewrite (refresh_or_fallback_throw _ _ NetworkError
               (log (EvFetch templateUrl) (log (EvCacheMatch templateUrl) w)))
      by (by apply updateTemplate_offline).
    by rewrite Ht, truthy_nonempty.
Qed.

(** What a refresh can answer with: nothing, or the fallback. *)
Lemma refresh_or_fallback_answer f w v :
  (refresh_or_fallback f w).1 = Ok v -> v = None \/ (v = f /\ Js.truthy f = true).
Proof.
  unfold refresh_or_fallback, try_catch, bind.
  destruct (updateTemplate w) as [[[t|]|e] w1]; cbn.
  - intros [= <-]. by left.
  - destruct (Js.truthy f) eqn:Hf; cbn; [|done]. intros [= <-]. by right.
  - destruct (Js.truthy f) eqn:Hf; cbn; [|done]. intros [= <-]. by right.
Qed.

Lemma templateForPartial_answer_source partial w t :
  (templateForPartial partial w).1 = Ok (Some t) ->
  exists resp cached,
    coreCache w !! templateUrl = Some resp /\
    body resp = BodyJson cached /\
    template cached = Some t.
Proof.
  unfold templateForPartial. run.
  destruct (coreCache w !! templateUrl) as [resp|] eqn:Hc; run.
  - destruct (body resp) as [| |cached] eqn:Hb; run; try done.
    destruct (negb _); run;
      [|destruct (_ || _); run].
    + intros [?|[? _]]%refresh_or_fallback_answer; [done|]. by exists resp, cached.
    + intros [= ?]. by exists resp, cached.
    + intros [?|[? _]]%refresh_or_fallback_answer; [done|]. by exists resp, cached.
  - intros [?|[? _]]%refresh_or_fallback_answer; done.
Qed.

(** X6. When the strategy answers with an ok JSON partial and the cached
    bundle is current for it, the handler answers with the cached template
    hydrated with that partial, under the status of the partial's response
    and a text/html content type; it reads the cache once and fetches
    nothing. *)
Theorem normalHandler_serves_cached_template
    (u : Url) (w : World) (path : string) (response : Response)
    (partial : JsonDoc) (resp : Response) (cached : JsonDoc) (rv t : string) :
  normalise u = inr path ->
  partialStrategy w (replace_html_suffix path) = Some response ->
  ok response = true ->
  body response = BodyJson partial ->
  coreCache w !! templateUrl = Some resp ->
  body resp = BodyJson cached ->
  resourcesVersion cached = Some rv ->
  rv <> EmptyString ->
  cached_is_current cached partial ->
  template cached = Some t ->
  normalHandler u w
  = (Ok {| status := status response;
           headers := [("Content-Type", "text/html")];
           body := BodyText (hydrate t partial) |},
     log (EvCacheMatch templateUrl) (log (EvStrategy (replace_html_suffix path)) w)).
Proof.
  intros Hn Hs Hok Hbody Hc Hb Hrv Hne Hcur Ht.
  rewrite (normalHandler_normalised _ _ Hn). unfold bind at 1.
  pose proof (partial_response_cases (replace_html_suffix path) w) as Hp.
  rewrite Hs in Hp. rewrite Hp, Hok. cbn [negb].
  unfold bind at 1, json. rewrite Hbody. cbn [ret]. unfold bind.
  rewrite (templateForPartial_hit partial _ resp cached); [by rewrite Ht|done..| |].
  - rewrite Hrv. by apply truthy_nonempty.
  - by apply current_reflect.
Qed.

Lemma normalHandler_serves_cached_template_witness :
  normalHandler (same_origin_url "/hi/" EmptyString) Scenario.warm_world
  = (Ok {| status := 200; headers := [("Content-Type", "text/html")];
           body := BodyText (hydrate Sample.layout Sample.partial) |},
     log (EvCacheMatch templateUrl)
       (log (EvStrategy "/hi/index.json") Scenario.warm_world)).
Proof.
  refine (normalHandler_serves_cached_template
            (same_origin_url "/hi/" EmptyString) Scenario.warm_world
            "/hi/index.html"
            (new_Response (BodyJson Sample.partial)) Sample.partial
            (new_Response (BodyJson Sample.bundle)) Sample.bundle "r1" Sample.layout
            eq_refl eq_refl eq_refl eq_refl eq_refl eq_refl eq_refl _ _ eq_refl).
  - discriminate.
  - left. reflexivity.
Defined.

(** X7. With the template endpoint out of reach and a cached bundle whose
    template is a non-empty string, [templateForPartial] answers with that
    template for every partial, whether or not the bundle is current, and
    leaves the cache as it was. *)
Theorem templateForPartial_offline_answers_from_cache
    (partial : JsonDoc) (w : World) (resp : Response) (cached : JsonDoc) (t : string) :
  network w templateUrl = None ->
  coreCache w !! templateUrl = Some resp ->
  body resp = BodyJson cached ->
  template cached = Some t ->
  t <> EmptyString ->
  (templateForPartial partial w).1 = Ok (Some t) /\
  coreCache (templateForPartial partial w).2 = coreCache w.
Proof. apply templateForPartial_offline_run. Qed.

Lemma templateForPartial_offline_answers_from_cache_witness :
  (templateForPartial Sample.quoting_partial Sample.cached_world).1
  = Ok (Some Sample.layout).
Proof.
  apply (templateForPartial_offline_answers_from_cache
           Sample.quoting_partial Sample.cached_world
           (new_Response (BodyJson Sample.bundle)) Sample.bundle Sample.layout);
    try reflexivity. discriminate.
Defined.

(** X8. With the template endpoint out of reach, whatever ok JSON partial the
    handler got (from the strategy, from the cached offline partial or from
    the development substitute) is rendered into the cached template, under
    the status of the partial's response. *)
Theorem normalHandler_offline_renders
    (u : Url) (w : World) (path : string) (response : Response) (w1 : World)
    (partial : JsonDoc) (resp : Response) (cached : JsonDoc) (t : string) :
  normalise u = inr path ->
  partial_response (replace_html_suffix path) w = (Ok response, w1) ->
  ok response = true ->
  body response = BodyJson partial ->
  network w templateUrl = None ->
  coreCache w !! templateUrl = Some resp ->
  body resp = BodyJson cached ->
  template cached = Some t ->
  t <> EmptyString ->
  (normalHandler u w).1
  = Ok {| status := status response;
          headers := [("Content-Type", "text/html")];
          body := BodyText (hydrate t partial) |}.
Proof.
  intros Hn Hp Hok Hbody Hnet Hc Hb Ht Hne.
  rewrite (normalHandler_normalised _ _ Hn). unfold bind at 1.
  pose proof (partial_response_surroundings (replace_html_suffix path) w)
    as (_ & _ & _ & _ & Hnet1 & _).
  pose proof (partial_response_cache (replace_html_suffix path) w) as Hc1.
  rewrite Hp in *. cbn [snd] in *. unfold same_cache in Hc1.
  rewrite Hok. cbn [negb]. unfold bind at 1, json. rewrite Hbody. cbn [ret].
  unfold bind.
  destruct (templateForPartial_offline_run partial w1 resp cached t) as [Hrun _];
    [by rewrite Hnet1|by rewrite Hc1|done..|].
  destruct (templateForPartial partial w1) as [r w2]. cbn in Hrun. by rewrite Hrun.
Qed.

Lemma normalHandler_offline_renders_witness :
  (normalHandler (same_origin_url "/learn/" EmptyString) Sample.cached_world).1
  = Ok {| status := 200; headers := [("Content-Type", "text/html")];
          body := BodyText (hydrate Sample.layout dev_offline_partial) |}.
Proof.
  apply (normalHandler_offline_renders
           (same_origin_url "/learn/" EmptyString) Sample.cached_world
           "/learn/index.html" (new_Response (BodyJson dev_offline_partial))
           (log (EvCacheMatch "/offline/index.json")
              (log (EvStrategy "/learn/index.json") Sample.cached_world))
           dev_offline_partial (new_Response (BodyJson Sample.bundle))
           Sample.bundle Sample.layout);
    try reflexivity. discriminate.
Defined.

(** X9. [templateForPartial] answers with a template string only if the core
    cache held a bundle with that template before the call: what a refresh
    fetched is never what it answers with. *)
Theorem templateForPartial_answers_only_from_cache
    (partial : JsonDoc) (w : World) (t : string) :
  (templateForPartial partial w).1 = Ok (Some t) ->
  exists resp cached,
    coreCache w !! templateUrl = Some resp /\
    body resp = BodyJson cached /\
    template cached = Some t.
Proof. apply templateForPartial_answer_source. Qed.

Lemma templateForPartial_answers_only_from_cache_witness :
  exists resp cached,
    coreCache Sample.cached_world !! templateUrl = Some resp /\
    body resp = BodyJson cached /\
    template cached = Some Sample.layout.
Proof.
  apply (templateForPartial_answers_only_from_cache Sample.partial Sample.cached_world).
  reflexivity.
Defined.

(** X10. Every page that the handler builds is built from a template that
    the core cache held when the request came in; on a first visit, with no
    bundle cached, the handler builds no page. *)
Theorem normalHandler_page_only_from_cached_template
    (u : Url) (w : World) (r : Response) (out : string) :
  (normalHandler u w).1 = Ok r ->
  body r = BodyText out ->
  exists resp cached t partial,
    coreCache w !! templateUrl = Some resp /\
    body resp = BodyJson cached /\
    template cached = Some t /\
    out = hydrate t partial.
Proof.
  destruct (normalise u) as [redirect|path] eqn:Hn.
  - unfold normalHandler. rewrite Hn. cbn. intros [= <-].
    unfold normalise in Hn. destruct (negb _); [|done].
    destruct (negb _); [|done]. by injection Hn as <-.
  - rewrite (normalHandler_normalised _ _ Hn). unfold bind at 1.
    pose proof (partial_response_cache (replace_html_suffix path) w) as Hc1.
    destruct (partial_response _ w) as [[response|e] w1]; [|done].
    cbn [snd] in Hc1. unfold same_cache in Hc1.
    destruct (negb (ok response)); [done|].
    unfold bind at 1, json. destruct (body response) as [| |partial]; try done.
    cbn [ret]. unfold bind.
    destruct (templateForPartial partial w1) as [[[t|]|e] w2] eqn:Ht; try done.
    cbn. intros [= <-] [= <-].
    destruct (templateForPartial_answer_source partial w1 t) as (resp & cached & ? & ? & ?);
      [by rewrite Ht|].
    exists resp, cached, t, partial. by rewrite <- Hc1.
Qed.

Lemma normalHandler_page_only_from_cached_template_witness :
  exists resp cached t partial,
    coreCache Sample.cached_world !! templateUrl = Some resp /\
    body resp = BodyJson cached /\
    template cached = Some t /\
    hydrate Sample.layout dev_offline_partial = hydrate t partial.
Proof.
  apply (normalHandler_page_only_from_cached_template
           (same_origin_url "/learn/" EmptyString) Sample.cached_world
           {| status := 200; headers := [("Content-Type", "text/html")];
              body := BodyText (hydrate Sample.layout dev_offline_partial) |});
    reflexivity.
Defined.

(** X11. A cached template entry whose body is not JSON makes
    [templateForPartial] throw a syntax error right after the cache read: it
    fetches nothing and does not repair the entry. *)
Theorem templateForPartial_unparsable_cache_throws
    (partial : JsonDoc) (w : World) (resp : Response) :
  coreCache w !! templateUrl = Some resp ->
  (forall d, body resp <> BodyJson d) ->
  templateForPartial partial w
  = (Throw SyntaxError, log (EvCacheMatch templateUrl) w).
Proof.
  intros Hc Hb. unfold templateForPartial. run. rewrite Hc. run.
  destruct (body resp) as [| |d] eqn:E; run; try done. by destruct (Hb d).
Qed.

Lemma templateForPartial_unparsable_cache_throws_witness :
  templateForPartial Sample.partial
    (Sample.offline_world {[ templateUrl := new_Response (BodyText "<html>") ]})
  = (Throw SyntaxError,
     log (EvCacheMatch templateUrl)
       (Sample.offline_world {[ templateUrl := new_Response (BodyText "<html>") ]})).
Proof.
  apply (templateForPartial_unparsable_cache_throws Sample.partial _
           (new_Response (BodyText "<html>"))); [reflexivity|discriminate].
Defined.

(** ** Refreshing and installing *)

Lemma fetch_each_fetchable net urls :
  is_Some (fetch_each net urls) <-> all_fetchable net urls.
Proof.
  unfold all_fetchable. induction urls as [|u rest IH]; cbn.
  - split; [|by eexists]. intros _ u Hu. by apply not_elem_of_nil in Hu.
  - split.
    + intros Hs x Hx.
      destruct (net u) as [r|] eqn:Hu; [|by destruct Hs].
      destruct (cacheable r) eqn:Hok; [|by destruct Hs].
      destruct (fetch_each net rest) as [l|]; [|by destruct Hs].
      apply elem_of_cons in Hx as [->|Hx]; [by exists r|].
      apply IH; [by eexists|done].
    + intros H. destruct (H u) as (r & -> & ->); [by left|].
      destruct (proj2 IH) as [l ->]; [|by eexists].
      intros x Hx. apply H. by right.
Qed.

Lemma fetch_all_fetchable net urls :
  is_Some (fetch_all net urls) <-> all_fetchable net urls /\ NoDup urls.
Proof.
  rewrite <- fetch_each_fetchable. unfold fetch_all.
  destruct (fetch_each net urls) as [l|]; [case_bool_decide|]; split.
  all: try (intros [? ?]; done); try (intros [[? ?] ?]; done).
  all: try (intros _; split; [by eexists|done]).
  all: try (intros; by eexists).
Qed.

Lemma cacheable_ok r : cacheable r = true -> ok r = true.
Proof. unfold cacheable. by intros [[? _]%andb_true_iff _]%andb_true_iff. Qed.

Lemma put_all_lookup_each net urls entries (c : gmap string Response) u :
  fetch_each net urls = Some entries -> u ∈ urls ->
  put_all entries c !! u = net u.
Proof.
  unfold put_all. revert entries c.
  induction urls as [|x rest IH]; intros entries c; cbn.
  - intros _ Hu. by apply not_elem_of_nil in Hu.
  - destruct (net x) as [r|] eqn:Hx; [|done]. destruct (cacheable r); [|done].
    destruct (fetch_each net rest) as [l|] eqn:Hl; [|done].
    intros [= <-] Hu. cbn.
    destruct (decide (u ∈ rest)) as [Hin|Hnot].
    + by apply IH.
    + apply elem_of_cons in Hu as [->|?]; [|done].
      pose proof (put_all_lookup_other l (<[x:=r]> c) x) as Ho.
      unfold put_all in Ho. rewrite Ho by (by rewrite (fetch_each_keys _ _ _ Hl)).
      by rewrite lookup_insert_eq.
Qed.

Lemma put_all_lookup_fetched net urls entries (c : gmap string Response) u :
  fetch_all net urls = Some entries -> u ∈ urls ->
  put_all entries c !! u = net u.
Proof. intros [H _]%fetch_all_each. by apply put_all_lookup_each. Qed.

(** A run of [updateTemplate] that succeeds. *)
Lemma updateTemplate_success w v w1 :
  updateTemplate w = (Ok v, w1) ->
  exists resp raw m entries,
    network w templateUrl = Some resp /\
    body resp = BodyJson raw /\
    manifest raw = Some m /\
    fetch_all (network w) (map url m) = Some entries /\
    v = template raw /\
    coreCache w1 = put_all entries (<[templateUrl := persisted raw]> (coreCache w)).
Proof.
  destruct (network w templateUrl) as [resp|] eqn:Hn;
    [|by rewrite updateTemplate_offline].
  destruct (body resp) as [| |raw] eqn:Hb;
    try (rewrite (updateTemplate_unparsable _ resp) by (done || congruence); done).
  rewrite (updateTemplate_parsed _ _ _ Hn Hb). cbn zeta.
  destruct (manifest raw) as [m|] eqn:Hm; [|done]. run.
  destruct (fetch_all (network w) (map url m)) as [entries|] eqn:Hf; run; [|done].
  intros [= <- <-]. by exists resp, raw, m, entries.
Qed.





(** X12. [updateTemplate] succeeds only if the template endpoint can be
    fetched, its body is a JSON record with a manifest, no url is in the
    manifest twice, and every url of the manifest can be fetched with an ok
    status other than 206; it then returns the record's template. *)
Theorem updateTemplate_succeeds_only_if (w : World) (v : option string) :
  (updateTemplate w).1 = Ok v ->
  exists resp raw m,
    network w templateUrl = Some resp /\
    body resp = BodyJson raw /\
    manifest raw = Some m /\
    NoDup (map url m) /\
    (forall u, u ∈ map url m ->
       exists r, network w u = Some r /\ ok r = true /\ status r <> 206) /\
    v = template raw.
Proof.
  destruct (updateTemplate w) as [r w1] eqn:E. cbn. intros ->.
  destruct (updateTemplate_success _ _ _ E)
    as (resp & raw & m & entries & Hn & Hb & Hm & Hf & Hv & _).
  exists resp, raw, m.
  destruct (proj1 (fetch_all_fetchable (network w) (map url m))) as [Hall Hnd];
    [by eexists|].
  repeat split; try done.
  intros u Hu. destruct (Hall u Hu) as (r & Hr & Hc). exists r.
  split; [done|]. unfold cacheable in Hc.
  apply andb_true_iff in Hc as [[Hok H206]%andb_true_iff _].
  split; [done|]. apply negb_true_iff, Z.eqb_neq in H206. done.
Qed.

Lemma updateTemplate_succeeds_only_if_witness :
  exists resp raw m,
    network Sample.online_world templateUrl = Some resp /\
    body resp = BodyJson raw /\
    manifest raw = Some m /\
    NoDup (map url m) /\
    (forall u, u ∈ map url m ->
       exists r, network Sample.online_world u = Some r /\ ok r = true /\
                 status r <> 206) /\
    Some Sample.layout = template raw.
Proof.
  apply (updateTemplate_succeeds_only_if Sample.online_world (Some Sample.layout)).
  reflexivity.
Defined.

(** X13. After a run of [updateTemplate] that succeeds, the core cache holds
    under every url of the manifest the response that the network gave for
    it, and that response is ok. *)
Theorem updateTemplate_precaches_manifest
    (w : World) (v : option string) (resp : Response) (raw : JsonDoc) (u : string) :
  network w templateUrl = Some resp ->
  body resp = BodyJson raw ->
  (updateTemplate w).1 = Ok v ->
  u ∈ manifest_urls raw ->
  coreCache (updateTemplate w).2 !! u = network w u /\
  exists r, network w u = Some r /\ ok r = true.
Proof.
  intros Hn Hb Hv Hu.
  destruct (updateTemplate w) as [r w1] eqn:E. cbn in Hv. subst r.
  destruct (updateTemplate_success _ _ _ E)
    as (resp' & raw' & m & entries & Hn' & Hb' & Hm & Hf & _ & Hc).
  assert (raw' = raw) as -> by congruence.
  unfold manifest_urls in Hu. rewrite Hm in Hu. cbn [snd]. split.
  - rewrite Hc. by apply put_all_lookup_fetched with (map url m).
  - assert (Hall : all_fetchable (network w) (map url m))
      by (apply fetch_all_fetchable; by eexists).
    destruct (Hall u Hu) as (r & ? & ?%cacheable_ok). by exists r.
Qed.

Lemma updateTemplate_precaches_manifest_witness :
  coreCache (updateTemplate Sample.online_world).2 !! "/offline/index.json"
  = Some (new_Response (BodyText "asset")).
Proof.
  refine (proj1 (updateTemplate_precaches_manifest
                   Sample.online_world (Some Sample.layout)
                   (new_Response (BodyJson Sample.served)) Sample.served
                   "/offline/index.json" eq_refl eq_refl eq_refl _)).
  cbn. apply elem_of_cons. right. apply elem_of_cons. by left.
Defined.



(** X15. What [updateTemplate] stored is what [templateForPartial] answers
    with afterwards: after a successful refresh whose manifest does not list
    the template url, a partial of the fetched bundle's non-empty
    resourcesVersion gets the fetched template from the cache, without
    another fetch. *)
Theorem updateTemplate_then_templateForPartial
    (w : World) (v : option string) (w1 : World) (resp : Response) (raw : JsonDoc)
    (rv : string) (partial : JsonDoc) :
  network w templateUrl = Some resp ->
  body resp = BodyJson raw ->
  updateTemplate w = (Ok v, w1) ->
  templateUrl ∉ manifest_urls raw ->
  resourcesVersion raw = Some rv ->
  rv <> EmptyString ->
  resourcesVersion partial = Some rv ->
  templateForPartial partial w1
  = (Ok (template raw), log (EvCacheMatch templateUrl) w1).
Proof.
  intros Hn Hb Hrun Hnot Hrv Hne Hprv.
  destruct (updateTemplate_success _ _ _ Hrun)
    as (resp' & raw' & m & entries & Hn' & Hb' & Hm & Hf & _ & Hc).
  assert (raw' = raw) as -> by congruence.
  unfold manifest_urls in Hnot. rewrite Hm in Hnot.
  assert (Hentry : coreCache w1 !! templateUrl = Some (persisted raw)).
  { rewrite Hc, put_all_lookup_other by (by rewrite (fetch_all_keys _ _ _ Hf)).
    apply lookup_insert_eq. }
  apply (templateForPartial_hit partial w1 (persisted raw) (delete_manifest raw));
    [done|done| |].
  - cbn. rewrite Hrv. by apply truthy_nonempty.
  - cbn. rewrite Hrv, Hprv. unfold Js.strict_eq. by rewrite bool_decide_eq_true_2.
Qed.

Lemma updateTemplate_then_templateForPartial_witness :
  templateForPartial Scenario.fresh_partial (updateTemplate Sample.online_world).2
  = (Ok (Some Sample.layout),
     log (EvCacheMatch templateUrl) (updateTemplate Sample.online_world).2).
Proof.
  refine (updateTemplate_then_templateForPartial
            Sample.online_world (Some Sample.layout)
            (updateTemplate Sample.online_world).2
            (new_Response (BodyJson Sample.served)) Sample.served "r2"
            Scenario.fresh_partial
            eq_refl eq_refl eq_refl _ eq_refl _ eq_refl).
  - cbn. intros Hin.
    apply elem_of_cons in Hin as [?|Hin]; [discriminate|].
    apply elem_of_cons in Hin as [?|Hin]; [discriminate|].
    by apply not_elem_of_nil in Hin.
  - discriminate.
Defined.





(** ** Activating *)

Lemma activate_same w :
  idb w !! idbKeys_architecture = Some serviceWorkerArchitecture ->
  activate w = (Ok tt, log (EvIdbGet idbKeys_architecture) w).
Proof.
  intros H. unfold activate. run. rewrite H.
  unfold Js.strict_eq. by rewrite bool_decide_eq_true_2.
Qed.

Lemma activate_changed w :
  idb w !! idbKeys_architecture <> Some serviceWorkerArchitecture ->
  exists evs,
    activate w
    = (Ok tt,
       {| coreCache := coreCache w; network := network w;
          partialStrategy := partialStrategy w;
          idb := <[idbKeys_architecture := serviceWorkerArchitecture]> (idb w);
          replacingPreviousServiceWorker := replacingPreviousServiceWorker w;
          registration_active := registration_active w;
          clients := map take_control (clients w);
          trace := trace w ++ evs |}).
Proof.
  intros H. unfold activate. run.
  unfold Js.strict_eq. rewrite bool_decide_eq_false_2 by done. run.
  destruct (replacingPreviousServiceWorker w) eqn:Hflag; run.
  - rewrite navigate_all_run. cbn. rewrite Hflag.
    eexists. by rewrite <- !app_assoc.
  - unfold set_clients, set_idb, log. cbn. rewrite Hflag.
    eexists. by rewrite <- !app_assoc.
Qed.

(** X17. After any run of the activate listener the store holds the worker's
    architecture tag, so that a second activation only reads the tag: it
    claims no client and reloads no window. *)
Theorem activate_twice (w : World) :
  idb (activate w).2 !! idbKeys_architecture = Some serviceWorkerArchitecture /\
  activate (activate w).2
  = (Ok tt, log (EvIdbGet idbKeys_architecture) (activate w).2).
Proof.
  assert (H : idb (activate w).2 !! idbKeys_architecture
              = Some serviceWorkerArchitecture).
  { destruct (decide (idb w !! idbKeys_architecture = Some serviceWorkerArchitecture))
      as [Hs|Hd].
    - by rewrite (activate_same _ Hs).
    - destruct (activate_changed _ Hd) as [evs ->]. cbn. apply lookup_insert_eq. }
  split; [done|]. by apply activate_same.
Qed.

(** X18. The activate listener leaves the core cache, the network and the
    install flag alone, and changes nothing of a client but whether it is
    controlled: identity, url and type stay. *)
Theorem activate_leaves_cache_and_urls (w : World) :
  coreCache (activate w).2 = coreCache w /\
  replacingPreviousServiceWorker (activate w).2 = replacingPreviousServiceWorker w /\
  map (fun c => (client_id c, client_url c, client_type c)) (clients (activate w).2)
  = map (fun c => (client_id c, client_url c, client_type c)) (clients w).
Proof.
  destruct (decide (idb w !! idbKeys_architecture = Some serviceWorkerArchitecture))
    as [Hs|Hd].
  - by rewrite (activate_same _ Hs).
  - destruct (activate_changed _ Hd) as [evs ->]. cbn. repeat split.
    rewrite map_map. by apply map_ext.
Qed.

(** ** Routes *)

Lemma offlinePartialResponse_keeps R `{!PreOrder R} :
  (forall e w, R w (log e w)) -> preserves R offlinePartialResponse.
Proof. intros H w. rewrite offlinePartialResponse_run. cbn. apply H. Qed.

Lemma catchHandler_surroundings u : preserves same_surroundings (catchHandler u).
Proof.
  unfold catchHandler. destruct (Route.partialMatch u); [|destruct (Route.normalMatch u)];
    keep; auto using fetch_surroundings.
  by apply offlinePartialResponse_keeps; [apply _|].
Qed.

Lemma surroundings_lifecycle w w' : same_surroundings w w' -> same_lifecycle w w'.
Proof. intros (? & ? & ? & _). by repeat split. Qed.

(** X19. Serving a request through the normal route or the partial route,
    catch handler included, leaves the idb store, the clients and the
    install flag as they were: what install and activate set up, no request
    changes. *)
Theorem routes_leave_lifecycle_state (u : Url) (w : World) :
  same_lifecycle w (normalRoute u w).2 /\
  same_lifecycle w (partialRoute u w).2.
Proof.
  split; apply surroundings_lifecycle.
  - revert w. change (preserves same_surroundings (normalRoute u)).
    unfold normalRoute. keep;
      auto using normalHandler_surroundings, catchHandler_surroundings.
  - revert w. change (preserves same_surroundings (partialRoute u)).
    unfold partialRoute. keep; auto using catchHandler_surroundings.
    intros w. unfold partialStrategy_handle. run.
    by destruct (partialStrategy w _).
Qed.

(** X20. For a page-shaped url the normal route ends in an error only if the
    fetch of the request itself fails: every error of the handler is turned
    by the catch handler into a plain network fetch. *)
Theorem normalRoute_fails_only_with_network (u : Url) (w : World) (e : JsError) :
  Route.normalMatch u = true ->
  (normalRoute u w).1 = Throw e ->
  e = NetworkError /\ network w (pathname u +:+ search u) = None.
Proof.
  intros Hm. unfold normalRoute, try_catch, bind at 1.
  pose proof (normalHandler_surroundings u w) as (_ & _ & _ & _ & Hnet & _).
  destruct (normalHandler u w) as [[r|e'] w1]; cbn [snd] in Hnet; [done|].
  unfold catchHandler. rewrite (normalMatch_not_partialMatch _ Hm), Hm. run.
  rewrite Hnet.
  destruct (network w (pathname u +:+ search u)); [done|]. by intros [= <-].
Qed.

Lemma normalRoute_fails_only_with_network_witness :
  network (Sample.offline_world ∅) "/learn/" = None.
Proof.
  refine (proj2 (normalRoute_fails_only_with_network
                   (same_origin_url "/learn/" EmptyString) (Sample.offline_world ∅)
                   NetworkError eq_refl eq_refl)).
Defined.

(** X21. A request on the partial route always gets a response: the
    strategy's when it answers, and otherwise the cached offline partial or,
    without one, a 200 response with the development offline partial. *)
Theorem partialRoute_always_answers (u : Url) (w : World) :
  Route.partialMatch u = true ->
  (partialRoute u w).1
  = Ok (Some (match partialStrategy w (pathname u +:+ search u) with
              | Some r => r
              | None => default (new_Response (BodyJson dev_offline_partial))
                                (coreCache w !! "/offline/index.json")
              end)).
Proof.
  intros Hm. unfold partialRoute, partialStrategy_handle. run.
  destruct (partialStrategy w _); [done|].
  unfold catchHandler. rewrite Hm. run. by rewrite offlinePartialResponse_run.
Qed.

Lemma partialRoute_always_answers_witness :
  (partialRoute (same_origin_url "/learn/index.json" EmptyString)
     (Sample.offline_world ∅)).1
  = Ok (Some (new_Response (BodyJson dev_offline_partial))).
Proof.
  exact (partialRoute_always_answers
           (same_origin_url "/learn/index.json" EmptyString) (Sample.offline_world ∅)
           eq_refl).
Defined.

(** ** Hydration *)

Lemma replace_expanding c a b pre post repl :
  has_char c a = false ->
  has_char c pre = false ->
  replace (pre +:+ (a +:+ String c b) +:+ post) (a +:+ String c b) repl
  = pre +:+ GetSubstitution (a +:+ String c b) pre post repl +:+ post.
Proof. intros Ha Hpre. unfold replace. by rewrite find_first_at. Qed.

(** [hydrate] on a template with the two markers in place, whatever the
    partial's raw is. *)
Lemma hydrate_at pre mid post partial :
  has_char "%" pre = false ->
  has_char "%" mid = false ->
  plain_field (title partial) = true ->
  plain_field (rss partial) = true ->
  hydrate (pre +:+ head_marker +:+ mid +:+ content_marker +:+ post) partial
  = pre +:+ head_injection partial +:+ mid
    +:+ GetSubstitution content_marker (pre +:+ head_injection partial +:+ mid) post
          (Js.to_string (raw partial))
    +:+ post.
Proof.
  intros Hpre Hmid Ht Hr.
  pose proof (plain_head_injection partial Ht Hr) as Hh.
  apply plain_spec in Hh as [Hh1 Hh2].
  unfold hydrate.
  change head_marker with ("<!-- " +:+ String "%" "_HEAD_REPLACE_% -->").
  rewrite (replace_at "%" "<!-- " "_HEAD_REPLACE_% -->") by done.
  change content_marker with (EmptyString +:+ String "%" "_CONTENT_REPLACE_%").
  rewrite <- (append_assoc (head_injection partial) mid), <- (append_assoc pre).
  rewrite (replace_expanding "%" EmptyString "_CONTENT_REPLACE_%"); [|done|].
  - by rewrite !append_assoc.
  - rewrite !has_char_app. by rewrite Hpre, Hh1, Hmid.
Qed.

Lemma GetSubstitution_double_dollar matched before after x y :
  has_char "$" x = false ->
  has_char "$" y = false ->
  GetSubstitution matched before after (x +:+ "$$" +:+ y) = x +:+ "$" +:+ y.
Proof.
  intros Hx Hy. induction x as [|c x IH].
  - change (EmptyString +:+ "$$" +:+ y) with (String "$" (String "$" y)).
    cbn [GetSubstitution]. rewrite !Ascii.eqb_refl.
    by rewrite GetSubstitution_plain.
  - cbn [has_char] in Hx. apply orb_false_iff in Hx as [Hc Hx].
    rewrite (append_cons c x). cbn [GetSubstitution].
    rewrite (Ascii.eqb_sym c), Hc. by rewrite IH.
Qed.

Lemma includes_app a pat b : includes (a +:+ pat +:+ b) pat = true.
Proof.
  unfold includes. induction a as [|c a IH].
  - rewrite append_nil_l. by rewrite find_first_here.
  - rewrite append_cons. cbn [find_first].
    destruct (strip_prefix pat _); [done|].
    by destruct (find_first pat (a +:+ pat +:+ b)) as [[? ?]|].
Qed.

(** X22. The partial's raw is not spliced in literally: on a well-formed
    template, a raw that holds one doubled dollar sign comes out with a
    single one in its place. *)
Theorem hydrate_halves_double_dollar
    (pre mid post : string) (partial : JsonDoc) (x y : string) :
  has_char "%" pre = false ->
  has_char "%" mid = false ->
  plain_field (title partial) = true ->
  plain_field (rss partial) = true ->
  raw partial = Some (x +:+ "$$" +:+ y) ->
  has_char "$" x = false ->
  has_char "$" y = false ->
  hydrate (pre +:+ head_marker +:+ mid +:+ content_marker +:+ post) partial
  = pre +:+ head_injection partial +:+ mid +:+ (x +:+ "$" +:+ y) +:+ post.
Proof.
  intros Hpre Hmid Ht Hr Hraw Hx Hy.
  rewrite hydrate_at by done. rewrite Hraw. cbn [Js.to_string].
  by rewrite GetSubstitution_double_dollar.
Qed.

Lemma hydrate_halves_double_dollar_witness :
  hydrate Sample.layout
    {| raw := Some "<code>echo $$</code>"; title := Some "Shell"; rss := None;
       offline := None; resourcesVersion := None; builtAt := None;
       template := None; manifest := None |}
  = "<html><head>"
    +:+ head_injection
          {| raw := Some "<code>echo $$</code>"; title := Some "Shell"; rss := None;
             offline := None; resourcesVersion := None; builtAt := None;
             template := None; manifest := None |}
    +:+ "</head><body>" +:+ ("<code>echo " +:+ "$" +:+ "</code>") +:+ "</body></html>".
Proof.
  apply (hydrate_halves_double_dollar
           "<html><head>" "</head><body>" "</body></html>" _
           "<code>echo " "</code>");
    reflexivity.
Defined.

(** X23. Only the first content marker of a template is substituted: when a
    second one follows, it is still in the output. *)
Theorem hydrate_replaces_first_marker_only
    (pre mid post rest : string) (partial : JsonDoc) :
  has_char "%" pre = false ->
  has_char "%" mid = false ->
  plain_field (title partial) = true ->
  plain_field (rss partial) = true ->
  includes
    (hydrate (pre +:+ head_marker +:+ mid +:+ content_marker
              +:+ post +:+ content_marker +:+ rest) partial)
    content_marker = true.
Proof.
  intros Hpre Hmid Ht Hr.
  rewrite (hydrate_at pre mid (post +:+ content_marker +:+ rest)) by done.
  rewrite <- !append_assoc. rewrite append_assoc. apply includes_app.
Qed.

Lemma hydrate_replaces_first_marker_only_witness :
  includes
    (hydrate ("<head>" +:+ head_marker +:+ "</head><main>" +:+ content_marker
              +:+ "</main><aside>" +:+ content_marker +:+ "</aside>")
       Sample.partial)
    content_marker = true.
Proof.
  apply (hydrate_replaces_first_marker_only
           "<head>" "</head><main>" "</main><aside>" "</aside>" Sample.partial);
    reflexivity.
Defined.

(** ** First visits *)

(** A page that the handler answers with, once the path is normalised. *)
Lemma normalHandler_page u w path r :
  normalise u = inr path ->
  (normalHandler u w).1 = Ok r ->
  exists resp cached t,
    coreCache w !! templateUrl = Some resp /\
    body resp = BodyJson cached /\
    template cached = Some t.
Proof.
  intros Hn. rewrite (normalHandler_normalised _ _ Hn). unfold bind at 1.
  pose proof (partial_response_cache (replace_html_suffix path) w) as Hc1.
  destruct (partial_response _ w) as [[response|e] w1]; [|done].
  cbn [snd] in Hc1. unfold same_cache in Hc1.
  destruct (negb (ok response)); [done|].
  unfold bind at 1, json. destruct (body response) as [| |partial]; try done.
  cbn [ret]. unfold bind.
  destruct (templateForPartial partial w1) as [[[t|]|e] w2] eqn:Ht; try done.
  intros _.
  destruct (templateForPartial_answer_source partial w1 t) as (resp & cached & ? & ? & ?);
    [by rewrite Ht|].
  exists resp, cached, t. by rewrite <- Hc1.
Qed.

(** The normal route gets the page-shaped urls that the images route,
    registered before it, does not take. *)
Lemma first_match_normal u :
  Route.first_match u = Some Route.ToNormalHandler <->
  Route.normalMatch u = true /\ Route.imagesMatch u = false.
Proof.
  unfold Route.first_match. split.
  - destruct (Route.partialMatch u); [done|].
    destruct (Route.imagesMatch u); [done|].
    by destruct (Route.normalMatch u).
  - intros [Hm ->]. by rewrite (normalMatch_not_partialMatch _ Hm), Hm.
Qed.

(** X24. With no template bundle in the core cache, a request that the
    router hands to the normal route, for a path that ends with a slash or
    with .html, is always answered by the plain network fetch of the catch
    handler, whatever the strategy and the template endpoint give: the first
    visit is never hydrated.  The normal route is handed the page-shaped urls
    of the site whose href does not hold /images/; those the images route
    takes first. *)
Theorem normalRoute_first_visit_goes_to_network (u : Url) (w : World) (path : string) :
  Route.first_match u = Some Route.ToNormalHandler ->
  normalise u = inr path ->
  coreCache w !! templateUrl = None ->
  Route.normalMatch u = true /\
  Route.imagesMatch u = false /\
  (normalRoute u w).1
  = match network w (pathname u +:+ search u) with
    | Some r => Ok (Some r)
    | None => Throw NetworkError
    end.
Proof.
  intros [Hm Himg]%first_match_normal Hn Hc. split; [done|]. split; [done|].
  unfold normalRoute, try_catch, bind at 1.
  pose proof (normalHandler_surroundings u w) as (_ & _ & _ & _ & Hnet & _).
  pose proof (normalHandler_page u w path) as Hpage.
  destruct (normalHandler u w) as [[r|e] w1]; cbn [fst snd] in *.
  - destruct (Hpage r Hn eq_refl) as (resp & cached & t & Hsome & _). congruence.
  - unfold catchHandler. rewrite (normalMatch_not_partialMatch _ Hm), Hm. run.
    rewrite Hnet. by destruct (network w (pathname u +:+ search u)).
Qed.

Lemma normalRoute_first_visit_goes_to_network_witness :
  (normalRoute (same_origin_url "/learn/" EmptyString) Sample.online_world).1
  = Ok (Some (new_Response (BodyText "asset"))).
Proof.
  exact (proj2 (proj2 (normalRoute_first_visit_goes_to_network
                         (same_origin_url "/learn/" EmptyString) Sample.online_world
                         "/learn/index.html" eq_refl eq_refl eq_refl))).
Defined.

(** A page-shaped url under /images/ goes to the images route, not to the
    normal handler. *)
Lemma first_match_images_page :
  Route.normalMatch (same_origin_url "/images/" EmptyString) = true /\
  Route.first_match (same_origin_url "/images/" EmptyString)
  = Some Route.ToImagesStrategy.
Proof. split; reflexivity. Qed.
